(** * The pipeline driver of [main.py]

    A shallow embedding of [go], the hydra entry point that selects the
    steps of the rental-price pipeline and hands each of them to
    [mlflow.run], together with the properties of its orchestration
    contract.

    Layout: the data model (configuration values, the host, events), the
    text written by [json.dump] and read by [json.load], the effect monad,
    the driver itself, and then the theorems. *)

From Stdlib Require Import ZArith Ascii Decimal DecimalString DecimalN DecimalPos DecimalFacts.
From stdpp Require Import gmap strings list fin_maps.

Set Warnings "-register-all".
Local Open Scope Z_scope.

(** ** Python values held by the configuration *)

(** One decimal digit. *)
Inductive digit : Type :=
  | d0 | d1 | d2 | d3 | d4 | d5 | d6 | d7 | d8 | d9.

(** A non-empty run of digits: its first digit and the others. *)
Record digits1 : Type := Digits1 { dg_head : digit; dg_tail : uint }.

(** The exponent part [e+16], [e-07] of a float literal; [ex_sign] is
    [None] when the literal carries no sign character. *)
Record exponent : Type := Exponent { ex_sign : option bool; ex_digits : digits1 }.

(** What follows the integer part of a float literal: a fraction with an
    optional exponent, or an exponent alone. *)
Inductive float_tail : Type :=
  | TFrac (f : digits1) (e : option exponent)
  | TExp (e : exponent).

(** A finite Python [float].  [float.__repr__] prints the shortest decimal
    literal that [float()] reads back as the same number, so a finite float
    is identified here with that literal: sign, integer part, and tail. *)
Record float_lit : Type :=
  FloatLit { fl_neg : bool; fl_int : N; fl_tail : float_tail }.

(** A Python [float]: a finite one, an infinity, or a NaN. *)
Inductive float : Type :=
  | Finite (x : float_lit)
  | Infinity (neg : bool)
  | NaN.

(** A key of a mapping of the configuration: a [str], an [int] or a
    [bool].  (Keys of other types, such as [float], are not part of this
    embedding; the statements that depend on the keys ask for strings.) *)
Inductive key : Type :=
  | KStr (s : string)
  | KInt (n : Z)
  | KBool (b : bool).

(** A node of the configuration tree: [None], [bool], [int], [float], [str],
    or a nested [DictConfig] with its items in insertion order.  A [str] is
    a [string] whose characters are the code points 0..255. *)
Inductive value : Type :=
  | VNone
  | VBool (b : bool)
  | VInt (n : Z)
  | VFloat (x : float)
  | VStr (s : string)
  | DictConfig (items : list (key * value)).

(** A plain [dict], such as [dict(items)] and what [json.load] returns:
    its items in insertion order. *)
Abbreviation dict := (list (key * value)).

(** The keyword arguments [parameters={...}] of a step: their names are
    the string literals of [go]. *)
Abbreviation parameters := (list (string * value)).

(** Items whose keys are strings. *)
Definition str_items (kvs : parameters) : dict :=
  map (λ kv, (KStr kv.1, kv.2)) kvs.

(** ** Invocations and exceptions *)

(** The locator of an external unit: either the f-string
    [f"{root}/{name}"], kept as its two parts because [root] is whatever
    the configuration holds, or a local path. *)
Inductive uri : Type :=
  | Component (root : value) (name : string)
  | LocalPath (path : string).

(** One call of [mlflow.run]. *)
Record invocation : Type := Invocation {
  inv_uri : uri;
  inv_entry_point : string;
  inv_version : option string;
  inv_parameters : parameters
}.

Inductive exn : Type :=
  | KeyError (k : string)              (* a configuration key is absent *)
  | TypeError                          (* a value of the wrong kind *)
  | AttributeError                     (* [.split] or [.items] on a value without it *)
  | ValueError                         (* a NUL character in an environment value *)
  | FileExistsError                    (* no usable temporary directory name *)
  | IsADirectoryError                  (* [open] on a directory *)
  | ExecutionException (i : invocation). (* the external run failed *)

(** Pure computations that may raise. *)
Inductive res (A : Type) : Type :=
  | Ok (a : A)
  | Raise (e : exn).
Arguments Ok {A} a.
Arguments Raise {A} e.

Definition res_bind {A B} (r : res A) (k : A → res B) : res B :=
  match r with
  | Ok a => k a
  | Raise e => Raise e
  end.

#[global] Instance res_mret : MRet res := λ A a, Ok a.
#[global] Instance res_mbind : MBind res := λ A B k r, res_bind r k.

(** ** Reading the configuration *)

(** First binding of [k] in a list of named values. *)
Fixpoint assoc {A} (k : string) (items : list (string * A)) : option A :=
  match items with
  | [] => None
  | (k', v) :: rest => if String.eqb k k' then Some v else assoc k rest
  end.

(** [a == b] on keys, which is how a mapping tells its keys apart: a
    [bool] is an [int], so that [True == 1] and [False == 0], and a [str]
    equals no number. *)
Definition key_eqb (a b : key) : bool :=
  match a, b with
  | KStr s, KStr t => String.eqb s t
  | KStr _, _ | _, KStr _ => false
  | KInt n, KInt m => Z.eqb n m
  | KInt n, KBool b | KBool b, KInt n => Z.eqb n (Z.b2z b)
  | KBool b, KBool c => Bool.eqb b c
  end.

(** The value a mapping binds to [k]. *)
Fixpoint key_assoc {A} (k : key) (items : list (key * A)) : option A :=
  match items with
  | [] => None
  | (k', v) :: rest => if key_eqb k k' then Some v else key_assoc k rest
  end.

(** [config[k]] for a string [k]. *)
Definition getitem (config : value) (k : string) : res value :=
  match config with
  | DictConfig items =>
      match key_assoc (KStr k) items with
      | Some v => Ok v
      | None => Raise (KeyError k)
      end
  | _ => Raise TypeError
  end.

(** [config[a][b]] *)
Definition getitem2 (config : value) (a b : string) : res value :=
  x ← getitem config a; getitem x b.

(** [config[a][b][c]] *)
Definition getitem3 (config : value) (a b c : string) : res value :=
  x ← getitem2 config a b; getitem x c.

(** ** Strings and paths *)

(** [s.split(sep)] for a one-character separator: every occurrence cuts,
    empty pieces are kept, and the empty string gives one empty piece. *)
Fixpoint split (sep : ascii) (s : string) : list string :=
  match s with
  | EmptyString => [EmptyString]
  | String c rest =>
      if Ascii.eqb c sep then EmptyString :: split sep rest
      else match split sep rest with
           | t :: ts => String c t :: ts
           | [] => [String c EmptyString]
           end
  end.

(** [s.endswith("/")] *)
Fixpoint ends_with_slash (s : string) : bool :=
  match s with
  | EmptyString => false
  | String c EmptyString => Ascii.eqb c "/"
  | String _ rest => ends_with_slash rest
  end.

(** [os.path.join(a, b)] of [posixpath]. *)
Definition path_join (a b : string) : string :=
  if String.prefix "/" b then b
  else if String.eqb a "" || ends_with_slash a then a +:+ b
  else a +:+ "/" +:+ b.

(** [p] lies below the directory [d]. *)
Definition inside (d p : string) : bool := String.prefix (d +:+ "/") p.

(** ** The step registry *)

Definition _steps : list string :=
  [ "download"; "basic_cleaning"; "data_check"; "data_split";
    "train_random_forest" ].

(** The blocks of [go], one per [if "..." in active_steps], in the order
    in which [go] lists them. *)
Inductive step : Type :=
  | download | basic_cleaning | data_check | data_split
  | train_random_forest | test_regression_model.

#[global] Instance step_eq_dec : EqDecision step.
Proof. solve_decision. Defined.

Definition step_name (s : step) : string :=
  match s with
  | download => "download"
  | basic_cleaning => "basic_cleaning"
  | data_check => "data_check"
  | data_split => "data_split"
  | train_random_forest => "train_random_forest"
  | test_regression_model => "test_regression_model"
  end.

Definition blocks : list step :=
  [ download; basic_cleaning; data_check; data_split;
    train_random_forest; test_regression_model ].

(** [steps_par.split(",") if steps_par != "all" else _steps].  Only a
    [str] equals ["all"] and only a [str] has the method [split]; on a
    [DictConfig] the attribute [split] is its key ["split"], whose value
    cannot be called. *)
Definition select (steps_par : value) : res (list string) :=
  match steps_par with
  | VStr s => if String.eqb s "all" then Ok _steps else Ok (split "," s)
  | DictConfig items =>
      match key_assoc (KStr "split") items with
      | Some _ => Raise TypeError
      | None => Raise AttributeError
      end
  | _ => Raise AttributeError
  end.

(** [name in active_steps] *)
Definition contains (name : string) (active_steps : list string) : bool :=
  existsb (String.eqb name) active_steps.

(** ** The text written by [json.dump] *)

Definition quote : ascii := Eval cbv in ascii_of_nat 34.
Definition backslash : ascii := Eval cbv in ascii_of_nat 92.

Definition digit_char (d : digit) : ascii :=
  match d with
  | d0 => "0" | d1 => "1" | d2 => "2" | d3 => "3" | d4 => "4"
  | d5 => "5" | d6 => "6" | d7 => "7" | d8 => "8" | d9 => "9"
  end%char.

Definition hex_char (n : N) : ascii :=
  match n with
  | 0 => "0" | 1 => "1" | 2 => "2" | 3 => "3" | 4 => "4" | 5 => "5"
  | 6 => "6" | 7 => "7" | 8 => "8" | 9 => "9" | 10 => "a" | 11 => "b"
  | 12 => "c" | 13 => "d" | 14 => "e" | _ => "f"
  end%N%char.

(** The replacement of one character by [py_encode_basestring_ascii]:
    the short escapes, the printable ASCII characters as they are, and
    [\u00XX] for the others. *)
Definition encode_char (c : ascii) : string :=
  let n := N_of_ascii c in
  if Ascii.eqb c quote then String backslash (String quote "")
  else if Ascii.eqb c backslash then String backslash (String backslash "")
  else if N.eqb n 10 then String backslash "n"
  else if N.eqb n 13 then String backslash "r"
  else if N.eqb n 9 then String backslash "t"
  else if N.eqb n 8 then String backslash "b"
  else if N.eqb n 12 then String backslash "f"
  else if N.leb 32 n && N.leb n 126 then String c ""
  else String backslash
         (String "u" (String "0" (String "0"
            (String (hex_char (n / 16)) (String (hex_char (n mod 16)) ""))))).

Fixpoint encode_chars (s : string) : string :=
  match s with
  | EmptyString => EmptyString
  | String c rest => encode_char c +:+ encode_chars rest
  end.

(** [encoder(s)]: the JSON string literal of [s]. *)
Definition encode_str (s : string) : string :=
  String quote (encode_chars s +:+ String quote "").

(** [int.__repr__] *)
Definition int_repr (n : Z) : string :=
  match n with
  | Z0 => "0"
  | Zpos p => NilEmpty.string_of_uint (Pos.to_uint p)
  | Zneg p => String "-" (NilEmpty.string_of_uint (Pos.to_uint p))
  end.

Definition digits1_repr (ds : digits1) : string :=
  String (digit_char (dg_head ds)) (NilEmpty.string_of_uint (dg_tail ds)).

Definition exponent_repr (e : exponent) : string :=
  String "e"
    (match ex_sign e with
     | None => ""
     | Some false => "+"
     | Some true => "-"
     end +:+ digits1_repr (ex_digits e)).

Definition float_tail_repr (t : float_tail) : string :=
  match t with
  | TFrac f None => String "." (digits1_repr f)
  | TFrac f (Some e) => String "." (digits1_repr f +:+ exponent_repr e)
  | TExp e => exponent_repr e
  end.

(** [float.__repr__] of a finite float. *)
Definition float_repr (x : float_lit) : string :=
  (if fl_neg x then "-" else "")
    +:+ NilEmpty.string_of_uint (N.to_uint (fl_int x))
    +:+ float_tail_repr (fl_tail x).

(** [floatstr] of the encoder, with [allow_nan]. *)
Definition floatstr (x : float) : string :=
  match x with
  | Finite l => float_repr l
  | Infinity false => "Infinity"
  | Infinity true => "-Infinity"
  | NaN => "NaN"
  end.

(** The string the encoder makes of a key: a [str] is kept, [True] and
    [False] become ["true"] and ["false"], an [int] its digits. *)
Definition key_str (k : key) : string :=
  match k with
  | KStr s => s
  | KBool true => "true"
  | KBool false => "false"
  | KInt n => int_repr n
  end.

(** The items as the encoder names them: each key as its string. *)
Definition text_items (d : dict) : parameters :=
  map (λ kv, (key_str kv.1, kv.2)) d.

(** The chunk the encoder yields for a value of a dict, [None] where it
    calls [default], which raises [TypeError]: a [DictConfig] is not a
    [dict]. *)
Definition encode_value (v : value) : option string :=
  match v with
  | VStr s => Some (encode_str s)
  | VNone => Some "null"
  | VBool true => Some "true"
  | VBool false => Some "false"
  | VInt n => Some (int_repr n)
  | VFloat x => Some (floatstr x)
  | DictConfig _ => None
  end.

(** The chunks of [_iterencode_dict] after the opening brace, joined,
    and whether the encoder raised before the closing brace. *)
Fixpoint iterencode_items (first : bool) (d : dict) : string * option exn :=
  match d with
  | [] => ("}", None)
  | (k, v) :: rest =>
      let head := (if first then "" else ", ") +:+ encode_str (key_str k) +:+ ": " in
      match encode_value v with
      | Some chunk =>
          let '(text, e) := iterencode_items false rest in
          (head +:+ chunk +:+ text, e)
      | None => (head, Some TypeError)
      end
  end.

(** [JSONEncoder().iterencode(d)] for a dict [d], with the default
    separators and [ensure_ascii]: the text yielded, and the exception
    that ended it early, if any. *)
Definition iterencode (d : dict) : string * option exn :=
  match d with
  | [] => ("{}", None)
  | _ => let '(text, e) := iterencode_items true d in (String "{" text, e)
  end.

(** [d[k] = v] on a dict: a key that is there already stays as it is,
    in its place, with the new value. *)
Fixpoint dict_set (k : key) (v : value) (d : dict) : dict :=
  match d with
  | [] => [(k, v)]
  | (k', v') :: rest =>
      if key_eqb k k' then (k', v) :: rest else (k', v') :: dict_set k v rest
  end.

(** [dict(pairs)] *)
Definition py_dict (pairs : dict) : dict :=
  fold_left (λ d kv, dict_set kv.1 kv.2 d) pairs [].

(** ** The text read by [json.load] *)

Definition char_digit (c : ascii) : option digit :=
  match c with
  | "0" => Some d0 | "1" => Some d1 | "2" => Some d2 | "3" => Some d3
  | "4" => Some d4 | "5" => Some d5 | "6" => Some d6 | "7" => Some d7
  | "8" => Some d8 | "9" => Some d9 | _ => None
  end%char.

Definition cons_digit (d : digit) (u : uint) : uint :=
  match d with
  | d0 => D0 u | d1 => D1 u | d2 => D2 u | d3 => D3 u | d4 => D4 u
  | d5 => D5 u | d6 => D6 u | d7 => D7 u | d8 => D8 u | d9 => D9 u
  end.

(** The longest run of digits at the head of the text, [[0-9]*]. *)
Fixpoint scan_uint (s : string) : uint * string :=
  match s with
  | EmptyString => (Nil, EmptyString)
  | String c rest =>
      match char_digit c with
      | Some d => let '(u, rest') := scan_uint rest in (cons_digit d u, rest')
      | None => (Nil, s)
      end
  end.

(** [[0-9]+] *)
Definition scan_digits1 (s : string) : option (digits1 * string) :=
  match s with
  | EmptyString => None
  | String c rest =>
      match char_digit c with
      | Some d => let '(u, rest') := scan_uint rest in Some (Digits1 d u, rest')
      | None => None
      end
  end.

(** [0|[1-9][0-9]*] *)
Definition scan_int_part (s : string) : option (N * string) :=
  match s with
  | EmptyString => None
  | String c rest =>
      match char_digit c with
      | Some d0 => Some (0%N, rest)
      | Some d => let '(u, rest') := scan_uint rest in
                  Some (N.of_uint (cons_digit d u), rest')
      | None => None
      end
  end.

(** [(\.[0-9]+)?] *)
Definition scan_frac (s : string) : option (digits1 * string) :=
  match s with
  | String c rest => if Ascii.eqb c "." then scan_digits1 rest else None
  | EmptyString => None
  end.

(** [[-+]?] *)
Definition scan_sign (s : string) : option bool * string :=
  match s with
  | String c r =>
      if Ascii.eqb c "+" then (Some false, r)
      else if Ascii.eqb c "-" then (Some true, r)
      else (None, s)
  | EmptyString => (None, s)
  end.

(** [([eE][-+]?[0-9]+)?] *)
Definition scan_exp (s : string) : option (exponent * string) :=
  match s with
  | String c rest =>
      if Ascii.eqb c "e" || Ascii.eqb c "E" then
        let '(sign, rest1) := scan_sign rest in
        match scan_digits1 rest1 with
        | Some (ds, rest2) => Some (Exponent sign ds, rest2)
        | None => None
        end
      else None
  | EmptyString => None
  end.

(** A number token after its sign, as [NUMBER_RE] matches it: an [int]
    when it has neither fraction nor exponent, else the [float] of the
    literal. *)
Definition scan_unsigned (neg : bool) (s : string) : option (value * string) :=
  match scan_int_part s with
  | None => None
  | Some (ip, s2) =>
      match scan_frac s2 with
      | Some (f, s3) =>
          match scan_exp s3 with
          | Some (e, s4) =>
              Some (VFloat (Finite (FloatLit neg ip (TFrac f (Some e)))), s4)
          | None => Some (VFloat (Finite (FloatLit neg ip (TFrac f None))), s3)
          end
      | None =>
          match scan_exp s2 with
          | Some (e, s4) => Some (VFloat (Finite (FloatLit neg ip (TExp e))), s4)
          | None => Some (VInt (if neg then - Z.of_N ip else Z.of_N ip), s2)
          end
      end
  end.

(** A number token: [-?] and the rest. *)
Definition scan_number (s : string) : option (value * string) :=
  match s with
  | String c r => if Ascii.eqb c "-" then scan_unsigned true r
                  else scan_unsigned false s
  | EmptyString => None
  end.

Definition hex_value (c : ascii) : option N :=
  let n := N_of_ascii c in
  if N.leb 48 n && N.leb n 57 then Some (n - 48)%N       (* 0-9 *)
  else if N.leb 97 n && N.leb n 102 then Some (n - 87)%N  (* a-f *)
  else if N.leb 65 n && N.leb n 70 then Some (n - 55)%N   (* A-F *)
  else None.

(** [_decode_uXXXX] *)
Definition decode_uXXXX (a b c d : ascii) : option N :=
  match hex_value a, hex_value b, hex_value c, hex_value d with
  | Some x, Some y, Some z, Some w => Some (((x * 16 + y) * 16 + z) * 16 + w)%N
  | _, _, _, _ => None
  end.

(** The [BACKSLASH] table of the decoder. *)
Definition unescape (c : ascii) : option ascii :=
  if Ascii.eqb c quote then Some quote
  else if Ascii.eqb c backslash then Some backslash
  else match c with
       | "/" => Some "/"
       | "b" => Some (ascii_of_N 8)
       | "f" => Some (ascii_of_N 12)
       | "n" => Some (ascii_of_N 10)
       | "r" => Some (ascii_of_N 13)
       | "t" => Some (ascii_of_N 9)
       | _ => None
       end%char.

(** [scanstring], strict, from just after the opening quote: the string
    and the text after its closing quote.  A [\uXXXX] above 255 is a
    character this embedding's [str] does not have, and is not read. *)
Fixpoint scanstring (s : string) : option (string * string) :=
  match s with
  | EmptyString => None
  | String c rest =>
      if Ascii.eqb c quote then Some (EmptyString, rest)
      else if Ascii.eqb c backslash then
        match rest with
        | String "u" (String h1 (String h2 (String h3 (String h4 rest')))) =>
            match decode_uXXXX h1 h2 h3 h4 with
            | Some n =>
                if N.ltb n 256 then
                  match scanstring rest' with
                  | Some (t, r) => Some (String (ascii_of_N n) t, r)
                  | None => None
                  end
                else None
            | None => None
            end
        | String e rest' =>
            match unescape e with
            | Some c' =>
                match scanstring rest' with
                | Some (t, r) => Some (String c' t, r)
                | None => None
                end
            | None => None
            end
        | EmptyString => None
        end
      else if N.ltb (N_of_ascii c) 32 then None
      else match scanstring rest with
           | Some (t, r) => Some (String c t, r)
           | None => None
           end
  end.

(** [WHITESPACE.match]: skip spaces, tabs, line feeds, carriage returns. *)
Fixpoint skip_ws (s : string) : string :=
  match s with
  | String c rest =>
      if Ascii.eqb c " " || N.eqb (N_of_ascii c) 9
         || N.eqb (N_of_ascii c) 10 || N.eqb (N_of_ascii c) 13
      then skip_ws rest else s
  | EmptyString => EmptyString
  end.

(** The text without the prefix [p], when it starts with it. *)
Fixpoint strip (p s : string) : option string :=
  match p, s with
  | EmptyString, _ => Some s
  | String c p', String c' s' => if Ascii.eqb c c' then strip p' s' else None
  | String _ _, EmptyString => None
  end.

(** The constants [NaN], [Infinity] and [-Infinity]. *)
Definition scan_constant (s : string) : option (value * string) :=
  match strip "NaN" s, strip "Infinity" s, strip "-Infinity" s with
  | Some r, _, _ => Some (VFloat NaN, r)
  | _, Some r, _ => Some (VFloat (Infinity false), r)
  | _, _, Some r => Some (VFloat (Infinity true), r)
  | _, _, _ => None
  end.

(** [scan_once] on a scalar: a string, [null], [true], [false], a number,
    or one of the constants.  Nested objects and arrays are not read by
    this embedding. *)
Definition scan_once (s : string) : option (value * string) :=
  match s with
  | String "n" (String "u" (String "l" (String "l" r))) => Some (VNone, r)
  | String "t" (String "r" (String "u" (String "e" r))) => Some (VBool true, r)
  | String "f" (String "a" (String "l" (String "s" (String "e" r)))) =>
      Some (VBool false, r)
  | String c r => if Ascii.eqb c quote then
                    match scanstring r with
                    | Some (t, r') => Some (VStr t, r')
                    | None => None
                    end
                  else match scan_number s with
                       | Some x => Some x
                       | None => scan_constant s
                       end
  | EmptyString => None
  end.

(** The loop of [JSONObject], entered just after the opening quote of a
    key: the pairs read and the text after the closing brace.  Each round
    uses one unit of [fuel]. *)
Fixpoint scan_members (fuel : nat) (s : string) : option (parameters * string) :=
  match fuel with
  | O => None
  | S fuel' =>
      match scanstring s with
      | None => None
      | Some (key, s1) =>
          match skip_ws s1 with
          | String ":" s2 =>
              match scan_once (skip_ws s2) with
              | None => None
              | Some (v, s3) =>
                  match skip_ws s3 with
                  | String "}" r => Some ([(key, v)], r)
                  | String "," s4 =>
                      match skip_ws s4 with
                      | String c s5 =>
                          if Ascii.eqb c quote then
                            match scan_members fuel' s5 with
                            | Some (pairs, r) => Some ((key, v) :: pairs, r)
                            | None => None
                            end
                          else None
                      | EmptyString => None
                      end
                  | _ => None
                  end
              end
          | _ => None
          end
      end
  end.

(** [JSONObject]: from just after the opening brace. *)
Definition scan_object (s : string) : option (parameters * string) :=
  match skip_ws s with
  | String "}" r => Some ([], r)
  | String c r =>
      if Ascii.eqb c quote then scan_members (String.length s) r else None
  | EmptyString => None
  end.

(** Modelled from the spec: the reader of the hyperparameter file is the
    training step, which is not part of the driver; the spec has the file
    parsed back from the JSON text.  This is [json.loads] on a document
    that is one object of scalars: skip white space, read the object, make
    a [dict] of its pairs, whose keys are strings, and accept nothing but
    white space after it. *)
Definition json_loads (text : string) : option dict :=
  match skip_ws text with
  | String "{" s =>
      match scan_object s with
      | Some (pairs, r) =>
          match skip_ws r with
          | EmptyString => Some (py_dict (str_items pairs))
          | _ => None
          end
      | None => None
      end
  | _ => None
  end.

(** ** The host and the effects of the driver *)

(** What the driver reads from the process it runs in: the working
    directory, the directory hydra was started from, and the names that
    [tempfile] would try, in order, for a new temporary directory. *)
Record Host : Type := {
  getcwd : string;
  get_original_cwd : string;
  candidate_names : list string
}.

(** What the driver changes: the environment variables of the process and
    the directories and files of the file system. *)
Record OS : Type := mkOS {
  environ : gmap string string;
  dirs : gset string;
  files : gmap string string
}.

(** The effects of a run, in the order in which they happen.  [EvRun s i]
    is the call of [mlflow.run] made by block [s] of [go]. *)
Inductive event : Type :=
  | EvSetEnv (name v : string)
  | EvMkdtemp (path : string)
  | EvCleanup (path : string)
  | EvOpen (path : string)
  | EvWrite (path text : string)
  | EvRun (s : step) (i : invocation).

(** What an event does to the state.  The run of an external step is
    opaque: the driver itself changes nothing when it happens. *)
Definition apply_event (e : event) (os : OS) : OS :=
  match e with
  | EvSetEnv name v => mkOS (<[name := v]> (environ os)) (dirs os) (files os)
  | EvMkdtemp d => mkOS (environ os) ({[d]} ∪ dirs os) (files os)
  | EvCleanup d =>
      mkOS (environ os)
           (filter (λ p, p ≠ d ∧ inside d p = false) (dirs os))
           (filter (λ kv, inside d kv.1 = false) (files os))
  | EvOpen path => mkOS (environ os) (dirs os) (<[path := ""]> (files os))
  | EvWrite path text =>
      mkOS (environ os) (dirs os)
           (<[path := default "" (files os !! path) +:+ text]> (files os))
  | EvRun _ _ => os
  end.

(** The state after a sequence of events. *)
Definition replay (os : OS) (t : list event) : OS :=
  fold_left (λ os e, apply_event e os) t os.

(** A computation of the driver: from the state before, its result or the
    exception it raises, the state after, and the events it caused. *)
Definition M (A : Type) : Type := OS → res A * OS * list event.

Definition M_ret {A} (a : A) : M A := λ os, (Ok a, os, []).

Definition M_bind {A B} (m : M A) (k : A → M B) : M B := λ os,
  match m os with
  | (Ok a, os1, t1) => let '(r, os2, t2) := k a os1 in (r, os2, t1 ++ t2)
  | (Raise e, os1, t1) => (Raise e, os1, t1)
  end.

#[global] Instance M_mret : MRet M := @M_ret.
#[global] Instance M_mbind : MBind M := λ A B k m, M_bind m k.

Definition lift {A} (r : res A) : M A := λ os, (r, os, []).

Definition emit (e : event) : M unit := λ os, (Ok (), apply_event e os, [e]).

(** [if b: m] *)
Definition when (b : bool) (m : M unit) : M unit :=
  if b then m else M_ret ().

(** The string holds a NUL character. *)
Fixpoint has_nul (s : string) : bool :=
  match s with
  | EmptyString => false
  | String c rest => Ascii.eqb c Ascii.zero || has_nul rest
  end.

(** [os.environ[name] = v], for the names [go] uses: [TypeError] when [v]
    is not a [str], [ValueError] when it holds a NUL character; the
    variable is set in neither case. *)
Definition setenv (name : string) (v : value) : M unit :=
  match v with
  | VStr s =>
      if has_nul s then lift (Raise ValueError) else emit (EvSetEnv name s)
  | _ => lift (Raise TypeError)
  end.

Definition path_exists (os : OS) (p : string) : bool :=
  bool_decide (p ∈ dirs os) || bool_decide (is_Some (files os !! p)).

(** [tempfile.mkdtemp()]: make the first candidate that does not exist
    yet; [FileExistsError] when every candidate exists. *)
Definition mkdtemp (host : Host) : M string := λ os,
  match List.find (λ p, negb (path_exists os p)) (candidate_names host) with
  | Some d => (Ok d, apply_event (EvMkdtemp d) os, [EvMkdtemp d])
  | None => (Raise FileExistsError, os, [])
  end.

(** [TemporaryDirectory.cleanup()]: remove the directory and what is
    below it. *)
Definition cleanup (d : string) : M unit := emit (EvCleanup d).

(** [with tempfile.TemporaryDirectory() as tmp_dir: body]: the directory
    is cleaned up when the body returns and when it raises. *)
Definition TemporaryDirectory {A} (host : Host) (body : string → M A) : M A :=
  λ os,
  match mkdtemp host os with
  | (Ok d, os1, t1) =>
      let '(r, os2, t2) := body d os1 in
      let '(_, os3, t3) := cleanup d os2 in
      (r, os3, t1 ++ t2 ++ t3)
  | (Raise e, os1, t1) => (Raise e, os1, t1)
  end.

(** [open(path, "w+")]: the file is created, or emptied;
    [IsADirectoryError] when the path is that of a directory, which is left
    as it is. *)
Definition open_w (path : string) : M unit := λ os,
  if bool_decide (path ∈ dirs os) then (Raise IsADirectoryError, os, [])
  else emit (EvOpen path) os.

(** [fp.write(text)], at the end of the file. *)
Definition fp_write (path text : string) : M unit := emit (EvWrite path text).

(** [json.dump(d, fp)]: what the encoder yields is written, also when it
    raises before the end. *)
Definition json_dump (d : dict) (path : string) : M unit :=
  let '(text, e) := iterencode d in
  fp_write path text ;;
  match e with
  | Some e => lift (Raise e)
  | None => M_ret ()
  end.

(** [v.items()] *)
Definition items (v : value) : res dict :=
  match v with
  | DictConfig kvs => Ok kvs
  | _ => Raise AttributeError
  end.

(** [os.path.abspath(p)]; [getcwd] is absolute and normalized. *)
Definition abspath (host : Host) (p : string) : string :=
  path_join (getcwd host) p.

(** [os.path.join(hydra.utils.get_original_cwd(), "src", name)] *)
Definition src_path (host : Host) (name : string) : string :=
  path_join (path_join (get_original_cwd host) "src") name.

(** ** The blocks of [go]: arguments of each [mlflow.run] *)

Definition download_call (config : value) : res invocation :=
  root ← getitem2 config "main" "components_repository";
  sample ← getitem2 config "etl" "sample";
  artifact_name ← getitem3 config "m_params" "download" "artifact_name";
  artifact_type ← getitem3 config "m_params" "download" "artifact_type";
  artifact_description ← getitem3 config "m_params" "download" "artifact_description";
  mret (Invocation (Component root "get_data") "main" (Some "main")
          [ ("sample", sample); ("artifact_name", artifact_name);
            ("artifact_type", artifact_type);
            ("artifact_description", artifact_description) ]).

Definition basic_cleaning_call (host : Host) (config : value) : res invocation :=
  input_artifact ← getitem3 config "m_params" "basic_cleaning" "input_artifact";
  output_artifact ← getitem3 config "m_params" "basic_cleaning" "output_artifact";
  output_type ← getitem3 config "m_params" "basic_cleaning" "output_type";
  output_description ← getitem3 config "m_params" "basic_cleaning" "output_description";
  min_price ← getitem2 config "etl" "min_price";
  max_price ← getitem2 config "etl" "max_price";
  mret (Invocation (LocalPath (src_path host "basic_cleaning")) "main" None
          [ ("input_artifact", input_artifact); ("output_artifact", output_artifact);
            ("output_type", output_type); ("output_description", output_description);
            ("min_price", min_price); ("max_price", max_price) ]).

Definition data_check_call (host : Host) (config : value) : res invocation :=
  csv ← getitem3 config "m_params" "data_check" "csv";
  ref ← getitem3 config "m_params" "data_check" "ref";
  kl_threshold ← getitem2 config "data_check" "kl_threshold";
  min_price ← getitem2 config "etl" "min_price";
  max_price ← getitem2 config "etl" "max_price";
  mret (Invocation (LocalPath (src_path host "data_check")) "main" None
          [ ("csv", csv); ("ref", ref); ("kl_threshold", kl_threshold);
            ("min_price", min_price); ("max_price", max_price) ]).

Definition data_split_call (config : value) : res invocation :=
  root ← getitem2 config "main" "components_repository";
  input ← getitem3 config "m_params" "data_split" "input";
  test_size ← getitem2 config "modeling" "test_size";
  random_seed ← getitem2 config "modeling" "random_seed";
  stratify_by ← getitem2 config "modeling" "stratify_by";
  mret (Invocation (Component root "train_val_test_split") "main" None
          [ ("input", input); ("test_size", test_size);
            ("random_seed", random_seed); ("stratify_by", stratify_by) ]).

Definition train_random_forest_call (host : Host) (config : value)
    (rf_config : string) : res invocation :=
  trainval_artifact ← getitem3 config "m_params" "train_random_forest" "trainval_artifact";
  val_size ← getitem2 config "modeling" "val_size";
  random_seed ← getitem2 config "modeling" "random_seed";
  stratify_by ← getitem2 config "modeling" "stratify_by";
  max_tfidf_features ← getitem2 config "modeling" "max_tfidf_features";
  output_artifact ← getitem3 config "m_params" "train_random_forest" "output_artifact";
  mret (Invocation (LocalPath (src_path host "train_random_forest")) "main" None
          [ ("trainval_artifact", trainval_artifact); ("val_size", val_size);
            ("random_seed", random_seed); ("stratify_by", stratify_by);
            ("rf_config", VStr rf_config);
            ("max_tfidf_features", max_tfidf_features);
            ("output_artifact", output_artifact) ]).

Definition test_regression_model_call (config : value) : res invocation :=
  root ← getitem2 config "main" "components_repository";
  mlflow_model ← getitem3 config "m_params" "test_regression_model" "mlflow_model";
  test_dataset ← getitem3 config "m_params" "test_regression_model" "test_dataset";
  mret (Invocation (Component root "test_regression_model") "main" None
          [ ("mlflow_model", mlflow_model); ("test_dataset", test_dataset) ]).

(** ** The driver *)

Section Driver.

Variable host : Host.

(** The answer of the external world: whether the run of an invocation
    completes successfully. *)
Variable run_succeeds : invocation → bool.

(** [mlflow.run(...)], synchronous: it raises when the run fails. *)
Definition mlflow_run (s : step) (i : invocation) : M unit :=
  emit (EvRun s i) ;;
  lift (if run_succeeds i then Ok () else Raise (ExecutionException i)).

(** The block of the training step: the hyperparameters are written to
    [rf_config.json] and the step is given the path of that file. *)
Definition train_random_forest_block (config : value) : M unit :=
  let rf_config := abspath host "rf_config.json" in
  open_w rf_config ;;
  rf ← lift (getitem2 config "modeling" "random_forest");
  kvs ← lift (items rf);
  json_dump (py_dict kvs) rf_config ;;
  i ← lift (train_random_forest_call host config rf_config);
  mlflow_run train_random_forest i.

(** The body of the [with] statement. *)
Definition body (config : value) (active_steps : list string)
    (tmp_dir : string) : M unit :=
  when (contains "download" active_steps)
    (i ← lift (download_call config); mlflow_run download i) ;;
  when (contains "basic_cleaning" active_steps)
    (i ← lift (basic_cleaning_call host config); mlflow_run basic_cleaning i) ;;
  when (contains "data_check" active_steps)
    (i ← lift (data_check_call host config); mlflow_run data_check i) ;;
  when (contains "data_split" active_steps)
    (i ← lift (data_split_call config); mlflow_run data_split i) ;;
  when (contains "train_random_forest" active_steps)
    (train_random_forest_block config) ;;
  when (contains "test_regression_model" active_steps)
    (i ← lift (test_regression_model_call config);
     mlflow_run test_regression_model i).

Definition go (config : value) : M unit :=
  project_name ← lift (getitem2 config "main" "project_name");
  setenv "WANDB_PROJECT" project_name ;;
  experiment_name ← lift (getitem2 config "main" "experiment_name");
  setenv "WANDB_RUN_GROUP" experiment_name ;;
  steps_par ← lift (getitem2 config "main" "steps");
  active_steps ← lift (select steps_par);
  TemporaryDirectory host (body config active_steps).

End Driver.

(** ** Vocabulary of the statements *)

(** The steps whose external unit was run, in the order of the runs. *)
Definition invoked (t : list event) : list step :=
  omap (λ e, match e with EvRun s _ => Some s | _ => None end) t.

(** The blocks of [go] whose guard [name in active_steps] holds, in the
    order in which [go] lists them. *)
Definition selected (active_steps : list string) : list step :=
  List.filter (λ s, contains (step_name s) active_steps) blocks.

(** An event that the body of the [with] statement can cause. *)
Definition body_event (e : event) : bool :=
  match e with
  | EvRun _ _ | EvOpen _ | EvWrite _ _ => true
  | _ => false
  end.

Definition is_setenv (e : event) : bool :=
  match e with
  | EvSetEnv _ _ => true
  | _ => false
  end.

(** The value a configuration key gives to an environment variable, or
    the exception that reading it or assigning it raises. *)
Definition env_value (config : value) (name : string) : res string :=
  v ← getitem2 config "main" name;
  match v with
  | VStr s => if has_nul s then Raise ValueError else Ok s
  | _ => Raise TypeError
  end.

(** [config["main"]["steps"]] turned into the active steps. *)
Definition active_steps_of (config : value) : res (list string) :=
  steps_par ← getitem2 config "main" "steps"; select steps_par.

(** The hyperparameters as [go] hands them to [json.dump]. *)
Definition rf_dict (config : value) : res dict :=
  rf ← getitem2 config "modeling" "random_forest";
  kvs ← items rf;
  mret (py_dict kvs).

(** What the block of a step does before it can call [mlflow.run], once
    its file, if it writes one, is open: the invocation it arrives at, or
    the exception that stops it. *)
Definition resolve (host : Host) (config : value) (s : step) : res invocation :=
  match s with
  | download => download_call config
  | basic_cleaning => basic_cleaning_call host config
  | data_check => data_check_call host config
  | data_split => data_split_call config
  | train_random_forest =>
      d ← rf_dict config;
      match (iterencode d).2 with
      | Some e => Raise e
      | None => train_random_forest_call host config (abspath host "rf_config.json")
      end
  | test_regression_model => test_regression_model_call config
  end.

(** The directories that exist while the body of the [with] statement
    runs: those of the state [go] started in, and the temporary
    directory. *)
Definition body_dirs (os : OS) (tmp_dir : string) : gset string :=
  {[tmp_dir]} ∪ dirs os.

(** What the block of a step does before it can call [mlflow.run], when
    the directories that exist are [ds]: the block of the training step
    first opens its file. *)
Definition prepare (host : Host) (config : value) (ds : gset string)
    (s : step) : res invocation :=
  match s with
  | train_random_forest =>
      if bool_decide (abspath host "rf_config.json" ∈ ds)
      then Raise IsADirectoryError
      else resolve host config s
  | _ => resolve host config s
  end.

(** The file events of the block of a step. *)
Definition file_events (host : Host) (config : value) (ds : gset string)
    (s : step) : list event :=
  match s with
  | train_random_forest =>
      if bool_decide (abspath host "rf_config.json" ∈ ds) then []
      else
        EvOpen (abspath host "rf_config.json")
        :: match rf_dict config with
           | Ok d => [EvWrite (abspath host "rf_config.json") (iterencode d).1]
           | Raise _ => []
           end
  | _ => []
  end.

Section Blocks.

Variable host : Host.
Variable run_succeeds : invocation → bool.
Variable config : value.

(** The directories that exist when the blocks run. *)
Variable ds : gset string.

(** The block of [go] guarded by [step_name s in active_steps]. *)
Definition block (s : step) : M unit :=
  match s with
  | download =>
      i ← lift (download_call config); mlflow_run run_succeeds download i
  | basic_cleaning =>
      i ← lift (basic_cleaning_call host config);
      mlflow_run run_succeeds basic_cleaning i
  | data_check =>
      i ← lift (data_check_call host config);
      mlflow_run run_succeeds data_check i
  | data_split =>
      i ← lift (data_split_call config); mlflow_run run_succeeds data_split i
  | train_random_forest => train_random_forest_block host run_succeeds config
  | test_regression_model =>
      i ← lift (test_regression_model_call config);
      mlflow_run run_succeeds test_regression_model i
  end.

(** Blocks run one after the other. *)
Fixpoint run_blocks (l : list step) : M unit :=
  match l with
  | [] => M_ret ()
  | s :: l' => block s ;; run_blocks l'
  end.

(** The result and the events of a list of blocks, without the state:
    a block that raises ends the list. *)
Fixpoint blocks_outcome (l : list step) : res unit * list event :=
  match l with
  | [] => (Ok (), [])
  | s :: l' =>
      match prepare host config ds s with
      | Raise e => (Raise e, file_events host config ds s)
      | Ok i =>
          if run_succeeds i then
            let '(r, t) := blocks_outcome l' in
            (r, file_events host config ds s ++ EvRun s i :: t)
          else
            (Raise (ExecutionException i),
             file_events host config ds s ++ [EvRun s i])
      end
  end.

End Blocks.

(** The text after a value of an object starts with a comma or with the
    closing brace. *)
Inductive token_end : string → Prop :=
  | end_comma r : token_end (String "," r)
  | end_brace r : token_end (String "}" r).

(** The text does not start with a digit. *)
Definition not_digit_head (s : string) : Prop :=
  match s with
  | String c _ => char_digit c = None
  | EmptyString => True
  end.

(** The characters a chunk of [encode_value] can start with. *)
Definition value_head (c : ascii) : Prop :=
  c = quote ∨ c = "n"%char ∨ c = "t"%char ∨ c = "f"%char ∨ c = "-"%char
  ∨ c = "N"%char ∨ c = "I"%char ∨ char_digit c ≠ None.

(** A block that arrives at an invocation whose run succeeds. *)
Definition passes (host : Host) (run_succeeds : invocation → bool)
    (config : value) (ds : gset string) (s : step) : Prop :=
  ∃ i, prepare host config ds s = Ok i ∧ run_succeeds i = true.

(** The ways a run of [go] can go: it stops while it sets up, or it
    enters the [with] statement and runs the selected blocks. *)
Inductive go_run (host : Host) (run_succeeds : invocation → bool)
    (config : value) (os : OS) : res unit → list event → Prop :=
  | go_no_project e :
      env_value config "project_name" = Raise e →
      go_run host run_succeeds config os (Raise e) []
  | go_no_experiment project e :
      env_value config "project_name" = Ok project →
      env_value config "experiment_name" = Raise e →
      go_run host run_succeeds config os (Raise e)
        [EvSetEnv "WANDB_PROJECT" project]
  | go_no_steps project experiment e :
      env_value config "project_name" = Ok project →
      env_value config "experiment_name" = Ok experiment →
      active_steps_of config = Raise e →
      go_run host run_succeeds config os (Raise e)
        [EvSetEnv "WANDB_PROJECT" project; EvSetEnv "WANDB_RUN_GROUP" experiment]
  | go_no_tmp_dir project experiment active_steps :
      env_value config "project_name" = Ok project →
      env_value config "experiment_name" = Ok experiment →
      active_steps_of config = Ok active_steps →
      List.find (λ p, negb (path_exists os p)) (candidate_names host) = None →
      go_run host run_succeeds config os (Raise FileExistsError)
        [EvSetEnv "WANDB_PROJECT" project; EvSetEnv "WANDB_RUN_GROUP" experiment]
  | go_with project experiment active_steps tmp_dir r t :
      env_value config "project_name" = Ok project →
      env_value config "experiment_name" = Ok experiment →
      active_steps_of config = Ok active_steps →
      List.find (λ p, negb (path_exists os p)) (candidate_names host) = Some tmp_dir →
      blocks_outcome host run_succeeds config (body_dirs os tmp_dir)
        (selected active_steps) = (r, t) →
      go_run host run_succeeds config os r
        ([EvSetEnv "WANDB_PROJECT" project; EvSetEnv "WANDB_RUN_GROUP" experiment;
          EvMkdtemp tmp_dir] ++ t ++ [EvCleanup tmp_dir]).

(** [",".join(l)] *)
Fixpoint comma_join (l : list string) : string :=
  match l with
  | [] => ""
  | [x] => x
  | x :: rest => x +:+ String "," (comma_join rest)
  end.

(** The string holds a space. *)
Fixpoint has_space (s : string) : bool :=
  match s with
  | EmptyString => false
  | String c rest => Ascii.eqb c " " || has_space rest
  end.


(** ** A configuration to run the driver on *)

Definition decimal (h : digit) : value :=
  VFloat (Finite (FloatLit false 0 (TFrac (Digits1 h Nil) None))).

(** A [DictConfig] whose keys are strings. *)
Definition mapping (kvs : parameters) : value := DictConfig (str_items kvs).

Definition example_hyperparameters : parameters :=
  [ ("n_estimators", VInt 100); ("max_depth", VInt 15);
    ("min_samples_split", VInt 4); ("min_samples_leaf", VInt 3);
    ("n_jobs", VInt (-1)); ("criterion", VStr "squared_error");
    ("max_features", decimal d5); ("oob_score", VBool true) ].

Definition example_random_forest : dict := str_items example_hyperparameters.

Definition example_config (steps : string) : value :=
  mapping
    [ ("main", mapping
         [ ("components_repository", VStr "https://example.org/pipeline#components");
           ("project_name", VStr "nyc_airbnb");
           ("experiment_name", VStr "development");
           ("steps", VStr steps) ]);
      ("etl", mapping
         [ ("sample", VStr "sample1.csv"); ("min_price", VInt 10);
           ("max_price", VInt 350) ]);
      ("data_check", mapping [ ("kl_threshold", decimal d2) ]);
      ("modeling", mapping
         [ ("test_size", decimal d2); ("val_size", decimal d2);
           ("random_seed", VInt 42); ("stratify_by", VStr "neighbourhood_group");
           ("max_tfidf_features", VInt 5);
           ("random_forest", DictConfig example_random_forest) ]);
      ("m_params", mapping
         [ ("download", mapping
              [ ("artifact_name", VStr "sample.csv");
                ("artifact_type", VStr "raw_data");
                ("artifact_description", VStr "Raw file as downloaded") ]);
           ("basic_cleaning", mapping
              [ ("input_artifact", VStr "sample.csv:latest");
                ("output_artifact", VStr "clean_sample.csv");
                ("output_type", VStr "clean_sample");
                ("output_description", VStr "Data with outliers removed") ]);
           ("data_check", mapping
              [ ("csv", VStr "clean_sample.csv:latest");
                ("ref", VStr "clean_sample.csv:reference") ]);
           ("data_split", mapping [ ("input", VStr "clean_sample.csv:latest") ]);
           ("train_random_forest", mapping
              [ ("trainval_artifact", VStr "trainval_data.csv:latest");
                ("output_artifact", VStr "random_forest_export") ]);
           ("test_regression_model", mapping
              [ ("mlflow_model", VStr "random_forest_export:prod");
                ("test_dataset", VStr "test_data.csv:latest") ]) ]) ].

Definition example_host : Host :=
  {| getcwd := "/work";
     get_original_cwd := "/home/project";
     candidate_names := [ "/tmp/tmpa1"; "/tmp/tmpb2" ] |}.

Definition empty_os : OS := mkOS ∅ ∅ ∅.

Definition all_succeed (i : invocation) : bool := true.

(** Every run succeeds but that of the data check. *)
Definition data_check_fails (i : invocation) : bool :=
  match inv_uri i with
  | LocalPath p => negb (String.eqb p "/home/project/src/data_check")
  | Component _ _ => true
  end.

(** The configuration without one of its sections. *)
Definition without (name : string) (config : value) : value :=
  match config with
  | DictConfig kvs =>
      DictConfig (List.filter (λ kv, negb (key_eqb kv.1 (KStr name))) kvs)
  | _ => config
  end.

(** The driver gets as far as the [with] statement: the two names are
    strings that an environment variable can hold, the selection is a
    string, and a temporary directory can be made. *)
Definition setup_succeeds (host : Host) (config : value) (os : OS)
    (active_steps : list string) (tmp_dir : string) : Prop :=
  (∃ project, env_value config "project_name" = Ok project) ∧
  (∃ experiment, env_value config "experiment_name" = Ok experiment) ∧
  active_steps_of config = Ok active_steps ∧
  List.find (λ p, negb (path_exists os p)) (candidate_names host) = Some tmp_dir.

(** The reading of the training block in which the hyperparameter file
    lies in the temporary directory of the run. *)
Definition rf_config_in_tmp_dir (t : list event) : Prop :=
  ∀ i, In (EvRun train_random_forest i) t →
    ∃ d path text,
      In (EvMkdtemp d) t ∧ In (EvWrite path text) t ∧ inside d path = true ∧
      assoc "rf_config" (inv_parameters i) = Some (VStr path).

#[global] Instance digit_eq_dec : EqDecision digit.
Proof. solve_decision. Defined.
#[global] Instance uint_eq_dec : EqDecision uint.
Proof. solve_decision. Defined.
#[global] Instance digits1_eq_dec : EqDecision digits1.
Proof. solve_decision. Defined.
#[global] Instance exponent_eq_dec : EqDecision exponent.
Proof. solve_decision. Defined.
#[global] Instance float_tail_eq_dec : EqDecision float_tail.
Proof. solve_decision. Defined.
#[global] Instance float_lit_eq_dec : EqDecision float_lit.
Proof. solve_decision. Defined.





(** ** Vocabulary of the further properties *)

(** [config[k1][k2]...] along a path of keys. *)
Fixpoint lookup_path (path : list string) (config : value) : res value :=
  match path with
  | [] => Ok config
  | k :: rest => v ← getitem config k; lookup_path rest v
  end.

(** The name of the external unit that the block of a step runs. *)
Definition unit_name (s : step) : string :=
  match s with
  | download => "get_data"
  | data_split => "train_val_test_split"
  | _ => step_name s
  end.

(** The blocks whose unit lies in the components repository. *)
Definition is_remote (s : step) : bool :=
  match s with
  | download | data_split | test_regression_model => true
  | _ => false
  end.

(** The path of the file an event opens or writes. *)
Definition file_event_path (e : event) : option string :=
  match e with
  | EvOpen p | EvWrite p _ => Some p
  | _ => None
  end.

(** All characters are printable ASCII, [' '] to ['~']. *)
Fixpoint printable_ascii (s : string) : bool :=
  match s with
  | EmptyString => true
  | String c rest =>
      N.leb 32 (N_of_ascii c) && N.leb (N_of_ascii c) 126 && printable_ascii rest
  end.

(** The string holds no comma. *)
Fixpoint no_comma (s : string) : bool :=
  match s with
  | EmptyString => true
  | String c rest => negb (Ascii.eqb c ",") && no_comma rest
  end.

(** The number of commas of the string. *)
Fixpoint count_commas (s : string) : nat :=
  match s with
  | EmptyString => O
  | String c rest => ((if Ascii.eqb c "," then 1 else 0) + count_commas rest)%nat
  end.

(** The configuration with [config[a][b]] set to [v]. *)
Definition setitem2 (a b : string) (v : value) (config : value) : value :=
  match config with
  | DictConfig kvs =>
      match key_assoc (KStr a) kvs with
      | Some (DictConfig sub) =>
          DictConfig (dict_set (KStr a) (DictConfig (dict_set (KStr b) v sub)) kvs)
      | _ => config
      end
  | _ => config
  end.

(** A host on which no temporary directory can be made. *)
Definition crowded_host : Host :=
  {| getcwd := "/work"; get_original_cwd := "/home/project"; candidate_names := [] |}.


(** A string with a NUL character. *)
Definition name_with_nul : string := String "n" (String Ascii.zero "yc").

(** A state in which [rf_config.json] is a directory. *)
Definition blocked_os : OS := mkOS ∅ {[ "/work/rf_config.json" ]} ∅.

(** A state in which a hyperparameter file is left from an earlier run. *)
Definition stale_os : OS :=
  mkOS {[ "WANDB_PROJECT" := "old_project" ]} {[ "/work" ]}
       {[ "/work/rf_config.json" := "{}" ]}.

(** * Properties *)

(** ** The effect monad *)

Ltac unfold_M :=
  unfold mbind, mret, M_mbind, M_mret, res_mbind, res_mret, M_bind, M_ret,
    res_bind, lift, emit in *.

Lemma replay_app os t1 t2 : replay os (t1 ++ t2) = replay (replay os t1) t2.
Proof. unfold replay. apply fold_left_app. Qed.

(** ** Blocks *)

Section BlockFacts.

Variable host : Host.
Variable run_succeeds : invocation → bool.
Variable config : value.

Lemma call_block s (call : res invocation) os :
  (i ← lift call; mlflow_run run_succeeds s i) os =
  match call with
  | Ok i => (if run_succeeds i then Ok () else Raise (ExecutionException i),
             os, [EvRun s i])
  | Raise e => (Raise e, os, [])
  end.
Proof.
  unfold mlflow_run. unfold_M. destruct call as [i|e]; [|reflexivity].
  simpl. destruct (run_succeeds i); reflexivity.
Qed.

Lemma block_spec s os :
  block host run_succeeds config s os =
  match prepare host config (dirs os) s with
  | Ok i =>
      (if run_succeeds i then Ok () else Raise (ExecutionException i),
       replay os (file_events host config (dirs os) s ++ [EvRun s i]),
       file_events host config (dirs os) s ++ [EvRun s i])
  | Raise e =>
      (Raise e, replay os (file_events host config (dirs os) s),
       file_events host config (dirs os) s)
  end.
Proof.
  destruct s; simpl; try (rewrite call_block; match goal with
    |- context [match ?c with Ok _ => _ | Raise _ => _ end] => destruct c
    end; reflexivity).
  unfold train_random_forest_block, rf_dict, json_dump, open_w, fp_write,
    mlflow_run.
  unfold_M.
  destruct (bool_decide (abspath host "rf_config.json" ∈ dirs os)); [reflexivity|].
  destruct (getitem2 config "modeling" "random_forest") as [rf|e]; simpl;
    [|reflexivity].
  destruct (items rf) as [kvs|e]; simpl; [|reflexivity].
  destruct (iterencode (py_dict kvs)) as [text [e|]]; simpl; [reflexivity|].
  destruct (train_random_forest_call host config _) as [i|e]; simpl;
    [|reflexivity].
  destruct (run_succeeds i); reflexivity.
Qed.

(** The events of a block leave the directories as they are. *)
Lemma dirs_block_events s i os ds :
  dirs (replay os (file_events host config ds s ++ [EvRun s i])) = dirs os.
Proof.
  destruct s; simpl; try reflexivity.
  destruct (bool_decide _); [reflexivity|].
  by destruct (rf_dict config).
Qed.

Lemma run_blocks_outcome l os :
  run_blocks host run_succeeds config l os =
  let '(r, t) := blocks_outcome host run_succeeds config (dirs os) l in
  (r, replay os t, t).
Proof.
  revert os. induction l as [|s l IH]; intros os; simpl; [reflexivity|].
  unfold mbind, M_mbind, M_bind. rewrite block_spec.
  destruct (prepare host config (dirs os) s) as [i|e]; [|reflexivity].
  destruct (run_succeeds i); [|reflexivity].
  rewrite IH, dirs_block_events.
  destruct (blocks_outcome host run_succeeds config (dirs os) l) as [r t].
  rewrite <- replay_app, <- app_assoc. reflexivity.
Qed.

Lemma body_blocks active_steps tmp_dir os :
  body host run_succeeds config active_steps tmp_dir os =
  run_blocks host run_succeeds config (selected active_steps) os.
Proof.
  unfold body.
  change (i ← lift (download_call config); mlflow_run run_succeeds download i)
    with (block host run_succeeds config download).
  change (i ← lift (basic_cleaning_call host config);
          mlflow_run run_succeeds basic_cleaning i)
    with (block host run_succeeds config basic_cleaning).
  change (i ← lift (data_check_call host config);
          mlflow_run run_succeeds data_check i)
    with (block host run_succeeds config data_check).
  change (i ← lift (data_split_call config); mlflow_run run_succeeds data_split i)
    with (block host run_succeeds config data_split).
  change (train_random_forest_block host run_succeeds config)
    with (block host run_succeeds config train_random_forest).
  change (i ← lift (test_regression_model_call config);
          mlflow_run run_succeeds test_regression_model i)
    with (block host run_succeeds config test_regression_model).
  unfold selected, blocks. cbn [List.filter step_name].
  destruct (contains "download" active_steps),
           (contains "basic_cleaning" active_steps),
           (contains "data_check" active_steps),
           (contains "data_split" active_steps),
           (contains "train_random_forest" active_steps),
           (contains "test_regression_model" active_steps);
    cbn [run_blocks]; generalize (block host run_succeeds config);
    intros blk; unfold when, mbind, M_mbind, M_bind, M_ret;
    repeat match goal with
      | |- context [blk ?s ?o] =>
          let r := fresh "r" in let o' := fresh "os" in let t := fresh "t" in
          destruct (blk s o) as [[[[]|r] o'] t]
      end;
    simpl; rewrite ?app_nil_r; reflexivity.
Qed.

End BlockFacts.

(** ** The run of [go] *)

Lemma setenv_spec {A} name config key (k : M A) os :
  (v ← lift (getitem2 config "main" key); setenv name v ;; k) os =
  match env_value config key with
  | Ok s =>
      let '(r, os', t) := k (apply_event (EvSetEnv name s) os) in
      (r, os', EvSetEnv name s :: t)
  | Raise e => (Raise e, os, [])
  end.
Proof.
  unfold env_value, setenv. unfold_M.
  destruct (getitem2 config "main" key) as [[| | | |s|]|e]; try reflexivity.
  simpl. destruct (has_nul s); [reflexivity|].
  destruct (k _) as [[r os'] t]. reflexivity.
Qed.

Lemma TemporaryDirectory_spec host (body : string → M unit) os :
  TemporaryDirectory host body os =
  match List.find (λ p, negb (path_exists os p)) (candidate_names host) with
  | Some d =>
      let '(r, os', t) := body d (apply_event (EvMkdtemp d) os) in
      (r, apply_event (EvCleanup d) os', [EvMkdtemp d] ++ t ++ [EvCleanup d])
  | None => (Raise FileExistsError, os, [])
  end.
Proof.
  unfold TemporaryDirectory, mkdtemp, cleanup, emit.
  destruct (List.find _ _) as [d|]; [|reflexivity].
  destruct (body d _) as [[r os'] t]. reflexivity.
Qed.

(** Every run of [go] is one of the runs [go_run] lists, and the state it
    ends in is the one its events lead to. *)
Lemma go_spec host run_succeeds config os r os' t :
  go host run_succeeds config os = (r, os', t) →
  go_run host run_succeeds config os r t ∧ os' = replay os t.
Proof.
  unfold go. rewrite setenv_spec.
  destruct (env_value config "project_name") as [project|e] eqn:Hp.
  2:{ intros [= <- <- <-]. split; [by apply go_no_project|done]. }
  rewrite setenv_spec.
  destruct (env_value config "experiment_name") as [experiment|e] eqn:He.
  2:{ intros [= <- <- <-]. split; [by eapply go_no_experiment|done]. }
  pose proof (eq_refl (active_steps_of config)) as Ha.
  unfold active_steps_of at 2 in Ha. unfold_M.
  destruct (getitem2 config "main" "steps") as [steps_par|e].
  2:{ intros [= <- <- <-]. split; [by eapply go_no_steps|done]. }
  simpl in Ha. destruct (select steps_par) as [active_steps|e].
  2:{ intros [= <- <- <-]. split; [by eapply go_no_steps|done]. }
  rewrite TemporaryDirectory_spec.
  change (path_exists (apply_event _ (apply_event _ os))) with (path_exists os).
  destruct (List.find _ _) as [d|] eqn:Hd.
  2:{ intros [= <- <- <-]. split; [by eapply go_no_tmp_dir|done]. }
  rewrite body_blocks, run_blocks_outcome.
  change (dirs (apply_event (EvMkdtemp d) _)) with (body_dirs os d).
  destruct (blocks_outcome _ _ _ _ _) as [r' tb] eqn:Hb.
  intros [= <- <- <-]. split; [by eapply go_with|].
  simpl. rewrite !replay_app. reflexivity.
Qed.

(** ** Events of a list of blocks *)

Lemma invoked_app t1 t2 : invoked (t1 ++ t2) = invoked t1 ++ invoked t2.
Proof. apply omap_app. Qed.

Lemma invoked_In s t : In s (invoked t) ↔ ∃ i, In (EvRun s i) t.
Proof.
  unfold invoked. rewrite <- list_elem_of_In, list_elem_of_omap. split.
  - intros (e & He & Hs). destruct e; try discriminate.
    injection Hs as ->. exists i. by apply list_elem_of_In.
  - intros (i & Hi). exists (EvRun s i). split; [by apply list_elem_of_In|done].
Qed.

Lemma app_split_absent {A} (x : A) (l f a b : list A) :
  ¬ In x l → l ++ f = a ++ x :: b → ∃ a', a = l ++ a' ∧ f = a' ++ x :: b.
Proof.
  revert a. induction l as [|y l IH]; intros a Hx H; simpl in *.
  - by exists a.
  - destruct a as [|z a]; simpl in H.
    + injection H as -> _. tauto.
    + injection H as <- H. apply IH in H as (a' & -> & ->); [|tauto].
      by exists a'.
Qed.

Section OutcomeFacts.

Variable host : Host.
Variable run_succeeds : invocation → bool.
Variable config : value.
Variable ds : gset string.

Local Abbreviation passes := (passes host run_succeeds config ds).

Lemma prepare_resolve s i :
  prepare host config ds s = Ok i → resolve host config s = Ok i.
Proof. destruct s; try done. simpl. by destruct (bool_decide _). Qed.

Lemma invoked_file_events s : invoked (file_events host config ds s) = [].
Proof.
  destruct s; try reflexivity. simpl.
  destruct (bool_decide _); [reflexivity|]. by destruct (rf_dict config).
Qed.

Lemma file_events_body s :
  Forall (λ e, body_event e = true) (file_events host config ds s).
Proof.
  destruct s; simpl; try constructor.
  destruct (bool_decide _); [constructor|].
  destruct (rf_dict config); repeat constructor.
Qed.

Lemma file_events_path s e :
  In e (file_events host config ds s) →
  e = EvOpen (abspath host "rf_config.json") ∨
  ∃ d, rf_dict config = Ok d ∧
       e = EvWrite (abspath host "rf_config.json") (iterencode d).1.
Proof.
  destruct s; simpl; try tauto.
  destruct (bool_decide _); [intros []|]. intros [<-|H]; [by left|].
  destruct (rf_dict config) as [d|]; simpl in H; [|tauto].
  destruct H as [<-|[]]. right. by exists d.
Qed.

Lemma file_events_no_run s s0 i : ¬ In (EvRun s0 i) (file_events host config ds s).
Proof.
  intros H. apply file_events_path in H as [H|(d & _ & H)]; discriminate.
Qed.

Lemma outcome_body l r t :
  blocks_outcome host run_succeeds config ds l = (r, t) →
  Forall (λ e, body_event e = true) t.
Proof.
  revert r t. induction l as [|s l IH]; intros r t; simpl.
  - intros [= <- <-]. constructor.
  - destruct (prepare host config ds s) as [i|e].
    + destruct (run_succeeds i).
      * destruct (blocks_outcome _ _ _ _ l) as [r' t'].
        intros [= <- <-]. apply Forall_app. split; [apply file_events_body|].
        constructor; [done|]. by eapply IH.
      * intros [= <- <-]. apply Forall_app. split; [apply file_events_body|].
        by repeat constructor.
    + intros [= <- <-]. apply file_events_body.
Qed.

(** The steps invoked are an initial segment of the list, and all of it
    when no block raises. *)
Lemma outcome_invoked l r t :
  blocks_outcome host run_succeeds config ds l = (r, t) →
  ∃ rest, l = invoked t ++ rest ∧ (r = Ok () → rest = []).
Proof.
  revert r t. induction l as [|s l IH]; intros r t; simpl.
  - intros [= <- <-]. by exists [].
  - destruct (prepare host config ds s) as [i|e].
    + destruct (run_succeeds i).
      * destruct (blocks_outcome _ _ _ _ l) as [r' t'].
        destruct (IH _ _ eq_refl) as (rest & -> & Hrest).
        intros [= <- <-]. exists rest.
        rewrite invoked_app, invoked_file_events. simpl. auto.
      * intros [= <- <-]. exists l.
        rewrite invoked_app, invoked_file_events. simpl. split; [done|].
        discriminate.
    + intros [= <- <-]. exists (s :: l).
      rewrite invoked_file_events. split; [done|discriminate].
Qed.

Lemma outcome_Ok l t :
  blocks_outcome host run_succeeds config ds l = (Ok (), t) →
  Forall passes l.
Proof.
  revert t. induction l as [|s l IH]; intros t; simpl; [constructor|].
  destruct (prepare host config ds s) as [i|e] eqn:Hs; [|discriminate].
  destruct (run_succeeds i) eqn:Hi; [|discriminate].
  destruct (blocks_outcome _ _ _ _ l) as [r' t'].
  intros [= -> <-]. constructor; [by exists i|]. by eapply IH.
Qed.


(** The converse: the first block that does not pass decides the run. *)
Lemma outcome_stops pre s post r t :
  blocks_outcome host run_succeeds config ds (pre ++ s :: post) = (r, t) →
  Forall passes pre →
  (∀ e, prepare host config ds s = Raise e → r = Raise e ∧ invoked t = pre) ∧
  (∀ i, prepare host config ds s = Ok i → run_succeeds i = false →
        r = Raise (ExecutionException i) ∧ invoked t = pre ++ [s]).
Proof.
  revert r t. induction pre as [|p pre IH]; intros r t; simpl.
  - intros H _. split.
    + intros e He. rewrite He in H. injection H as <- <-.
      by rewrite invoked_file_events.
    + intros i Hi Hf. rewrite Hi, Hf in H. injection H as <- <-.
      by rewrite invoked_app, invoked_file_events.
  - intros H Hall. inversion Hall as [|? ? (j & Hj & Hok) Hpre]; subst.
    rewrite Hj, Hok in H.
    destruct (blocks_outcome _ _ _ _ (pre ++ s :: post)) as [r' t'].
    injection H as <- <-. destruct (IH _ _ eq_refl Hpre) as [H1 H2].
    rewrite invoked_app, invoked_file_events. simpl. split.
    + intros e He. destruct (H1 e He) as [-> ->]. done.
    + intros i Hi Hf. destruct (H2 i Hi Hf) as [-> ->]. done.
Qed.

(** A block is run as soon as those before it have passed and it
    resolves, whatever its run gives. *)
Lemma outcome_reaches pre s post r t i :
  blocks_outcome host run_succeeds config ds (pre ++ s :: post) = (r, t) →
  Forall passes pre → prepare host config ds s = Ok i → In (EvRun s i) t.
Proof.
  revert r t. induction pre as [|p pre IH]; intros r t; simpl.
  - intros H _ Hi. rewrite Hi in H.
    destruct (run_succeeds i);
      [destruct (blocks_outcome _ _ _ _ post)|]; injection H as <- <-;
      apply in_app_iff; right; by left.
  - intros H Hall Hi. inversion Hall as [|? ? (j & Hj & Hok) Hpre]; subst.
    rewrite Hj, Hok in H.
    destruct (blocks_outcome _ _ _ _ (pre ++ s :: post)) as [r' t'] eqn:Hb.
    injection H as <- <-. apply in_app_iff. right. right. by eapply IH.
Qed.

(** A run in the events is the run of a block of the list, with the
    invocation the block resolves to. *)
Lemma outcome_run l r t s i :
  blocks_outcome host run_succeeds config ds l = (r, t) →
  In (EvRun s i) t → In s l ∧ prepare host config ds s = Ok i.
Proof.
  revert r t. induction l as [|s' l IH]; intros r t; simpl.
  - intros [= <- <-] [].
  - pose proof (file_events_no_run s' s i) as Hfile.
    destruct (prepare host config ds s') as [j|e] eqn:Hs'.
    + destruct (run_succeeds j).
      * destruct (blocks_outcome _ _ _ _ l) as [r' t'].
        intros [= <- <-]. rewrite in_app_iff. simpl.
        intros [H|[[= <- <-]|H]]; [done|by auto|].
        destruct (IH _ _ eq_refl H). auto.
      * intros [= <- <-]. rewrite in_app_iff. simpl.
        intros [H|[[= <- <-]|[]]]; [done|by auto].
    + intros [= <- <-] H. done.
Qed.

(** A failed run is the last event of the body, and its exception is
    the result. *)
Lemma outcome_failed_run l r t t1 t2 s i :
  blocks_outcome host run_succeeds config ds l = (r, t) →
  t = t1 ++ EvRun s i :: t2 → run_succeeds i = false →
  t2 = [] ∧ r = Raise (ExecutionException i).
Proof.
  revert r t t1. induction l as [|s' l IH]; intros r t t1; simpl.
  - intros [= <- <-] H. by destruct t1.
  - assert (Hfile : ∀ f a b, file_events host config ds s' ++ f = a ++ EvRun s i :: b →
              ∃ a', a = file_events host config ds s' ++ a' ∧ f = a' ++ EvRun s i :: b).
    { intros f a b. apply app_split_absent, file_events_no_run. }
    destruct (prepare host config ds s') as [j|e] eqn:Hs'.
    + destruct (run_succeeds j) eqn:Hj.
      * destruct (blocks_outcome _ _ _ _ l) as [r' t'].
        intros [= <- <-] H Hf. apply Hfile in H as (a' & -> & H).
        destruct a' as [|y a']; simpl in H.
        -- injection H as <- <- _. congruence.
        -- injection H as _ H. by eapply IH.
      * intros [= <- <-] H Hf. apply Hfile in H as (a' & -> & H).
        destruct a' as [|y a']; simpl in H.
        -- by injection H as <- <- <-.
        -- injection H as _ H. by destruct a'.
    + intros [= <- <-] H. exfalso.
      rewrite <- (app_nil_r (file_events _ _ _ _)) in H.
      apply Hfile in H as (a' & _ & H). by destruct a'.
Qed.

(** The training step is run right after the hyperparameter file has
    been opened and the whole dump written to it. *)
Lemma outcome_train l r t i :
  blocks_outcome host run_succeeds config ds l = (r, t) →
  In (EvRun train_random_forest i) t →
  ∃ d t1 t2,
    rf_dict config = Ok d ∧ (iterencode d).2 = None ∧
    train_random_forest_call host config (abspath host "rf_config.json") = Ok i ∧
    t = t1 ++ [EvOpen (abspath host "rf_config.json");
               EvWrite (abspath host "rf_config.json") (iterencode d).1;
               EvRun train_random_forest i] ++ t2.
Proof.
  revert r t. induction l as [|s' l IH]; intros r t; simpl.
  - intros [= <- <-] [].
  - pose proof (file_events_no_run s' train_random_forest i) as Hfile.
    assert (Hhere : ∀ j, prepare host config ds train_random_forest = Ok j →
      ∃ d, rf_dict config = Ok d ∧ (iterencode d).2 = None ∧
           train_random_forest_call host config (abspath host "rf_config.json") = Ok j ∧
           file_events host config ds train_random_forest =
             [EvOpen (abspath host "rf_config.json");
              EvWrite (abspath host "rf_config.json") (iterencode d).1]).
    { intros j. simpl. destruct (bool_decide _); [discriminate|].
      destruct (rf_dict config) as [d|]; [|discriminate].
      simpl. destruct (iterencode d).2 eqn:He; [discriminate|].
      intros Hj. by exists d. }
    destruct (prepare host config ds s') as [j|e] eqn:Hs'.
    + destruct (run_succeeds j).
      * destruct (blocks_outcome _ _ _ _ l) as [r' t'].
        intros [= <- <-]. rewrite in_app_iff. simpl.
        intros [H|[[= -> ->]|H]]; [done| |].
        -- destruct (Hhere _ Hs') as (d & Hd & He & Hc & ->).
           exists d, [], t'. done.
        -- destruct (IH _ _ eq_refl H) as (d & t1 & t2 & Hd & He & Hc & ->).
           exists d, (file_events host config ds s' ++ EvRun s' j :: t1), t2.
           repeat split; try done. by rewrite <- app_assoc.
      * intros [= <- <-]. rewrite in_app_iff. simpl.
        intros [H|[[= -> ->]|[]]]; [done|].
        destruct (Hhere _ Hs') as (d & Hd & He & Hc & ->).
        exists d, [], []. done.
    + intros [= <- <-] H. done.
Qed.

End OutcomeFacts.

(** ** The text of the hyperparameter file *)

#[local] Arguments String.append !_ _ / : simpl nomatch.

Lemma append_assoc (a b c : string) : (a +:+ b) +:+ c = a +:+ (b +:+ c).
Proof. induction a as [|x a IH]; simpl; [reflexivity|]. by rewrite IH. Qed.

Lemma token_end_not_digit rest : token_end rest → not_digit_head rest.
Proof. by intros []. Qed.

Lemma char_digit_char d : char_digit (digit_char d) = Some d.
Proof. by destruct d. Qed.

Lemma scan_uint_print u rest :
  not_digit_head rest →
  scan_uint (NilEmpty.string_of_uint u +:+ rest) = (u, rest).
Proof.
  intros H. induction u; simpl; try (by rewrite IHu).
  destruct rest as [|c r]; simpl in *; [reflexivity|]. by rewrite H.
Qed.

Lemma scan_digits1_print ds rest :
  not_digit_head rest →
  scan_digits1 (digits1_repr ds +:+ rest) = Some (ds, rest).
Proof.
  intros H. destruct ds as [d u]. unfold digits1_repr. simpl.
  by rewrite char_digit_char, scan_uint_print.
Qed.

(** The digits of a positive number start with a digit other than zero. *)
Lemma to_uint_head p :
  ∃ d u, d ≠ d0 ∧ Pos.to_uint p = cons_digit d u.
Proof.
  assert (Hn : unorm (Pos.to_uint p) = Pos.to_uint p).
  { rewrite <- DecimalPos.Unsigned.to_of, DecimalPos.Unsigned.of_to.
    reflexivity. }
  pose proof (DecimalPos.Unsigned.to_uint_nonzero p) as Hz.
  pose proof (DecimalPos.Unsigned.to_uint_nonnil p) as Hnil.
  destruct (Pos.to_uint p) as [|u|u|u|u|u|u|u|u|u|u]; [done| | | | | | | | | |].
  - exfalso. rewrite unorm_D0 in Hn. destruct u as [|u|u|u|u|u|u|u|u|u|u];
      [by apply Hz| | | | | | | | | |];
      match type of Hn with unorm ?v = _ =>
        assert (Hv : v ≠ Nil) by discriminate;
        pose proof (nb_digits_unorm v Hv) as Hle; rewrite Hn in Hle;
        simpl in Hle; lia
      end.
  - by exists d1, u.
  - by exists d2, u.
  - by exists d3, u.
  - by exists d4, u.
  - by exists d5, u.
  - by exists d6, u.
  - by exists d7, u.
  - by exists d8, u.
  - by exists d9, u.
Qed.

Lemma print_cons_digit d u :
  NilEmpty.string_of_uint (cons_digit d u) =
  String (digit_char d) (NilEmpty.string_of_uint u).
Proof. by destruct d. Qed.

(** The decimal text of a natural number starts with a digit. *)
Lemma N_text_head n :
  ∃ d tl, NilEmpty.string_of_uint (N.to_uint n) = String (digit_char d) tl.
Proof.
  destruct n as [|p]; [by exists d0, ""|].
  destruct (to_uint_head p) as (d & u & _ & Hp). simpl. rewrite Hp.
  rewrite print_cons_digit. by eexists _, _.
Qed.

Lemma scan_int_part_print n rest :
  not_digit_head rest →
  scan_int_part (NilEmpty.string_of_uint (N.to_uint n) +:+ rest) = Some (n, rest).
Proof.
  intros H. destruct n as [|p]; [reflexivity|].
  destruct (to_uint_head p) as (d & u & Hd & Hp).
  change (N.to_uint (N.pos p)) with (Pos.to_uint p).
  rewrite Hp, print_cons_digit. simpl. rewrite char_digit_char.
  rewrite scan_uint_print by done.
  assert (N.of_uint (cons_digit d u) = N.pos p) as ->.
  { rewrite <- Hp. apply DecimalPos.Unsigned.of_to. }
  by destruct d.
Qed.

Lemma scan_exp_print e rest :
  not_digit_head rest →
  scan_exp (exponent_repr e +:+ rest) = Some (e, rest).
Proof.
  intros H. destruct e as [sign [d u]]. unfold exponent_repr. simpl.
  destruct sign as [[]|]; simpl.
  - by rewrite char_digit_char, scan_uint_print.
  - by rewrite char_digit_char, scan_uint_print.
  - destruct d; simpl; by rewrite scan_uint_print.
Qed.

Lemma scan_exp_end rest : token_end rest → scan_exp rest = None.
Proof. by intros []. Qed.

Lemma scan_frac_end rest : token_end rest → scan_frac rest = None.
Proof. by intros []. Qed.

Lemma scan_unsigned_int neg n rest :
  token_end rest →
  scan_unsigned neg (NilEmpty.string_of_uint (N.to_uint n) +:+ rest) =
  Some (VInt (if neg then - Z.of_N n else Z.of_N n), rest).
Proof.
  intros H. unfold scan_unsigned.
  rewrite scan_int_part_print by by apply token_end_not_digit.
  by rewrite scan_frac_end, scan_exp_end.
Qed.

Lemma append_String c (a b : string) : String c a +:+ b = String c (a +:+ b).
Proof. reflexivity. Qed.

Lemma exponent_not_digit e rest : not_digit_head (exponent_repr e +:+ rest).
Proof. reflexivity. Qed.

Lemma scan_frac_print f rest :
  not_digit_head rest →
  scan_frac (String "." (digits1_repr f +:+ rest)) = Some (f, rest).
Proof. intros H. unfold scan_frac. simpl Ascii.eqb. by apply scan_digits1_print. Qed.

Lemma scan_frac_exponent e rest : scan_frac (exponent_repr e +:+ rest) = None.
Proof. reflexivity. Qed.

Lemma scan_unsigned_float neg ip tail rest :
  token_end rest →
  scan_unsigned neg
    (NilEmpty.string_of_uint (N.to_uint ip) +:+ float_tail_repr tail +:+ rest) =
  Some (VFloat (Finite (FloatLit neg ip tail)), rest).
Proof.
  intros H. pose proof (token_end_not_digit _ H) as Hd. unfold scan_unsigned.
  destruct tail as [f [e|]|e]; unfold float_tail_repr.
  - rewrite append_String, append_assoc.
    rewrite scan_int_part_print by reflexivity.
    rewrite scan_frac_print by apply exponent_not_digit.
    by rewrite scan_exp_print.
  - rewrite append_String.
    rewrite scan_int_part_print by reflexivity.
    rewrite scan_frac_print by done. by rewrite scan_exp_end.
  - rewrite scan_int_part_print by apply exponent_not_digit.
    rewrite scan_frac_exponent. by rewrite scan_exp_print.
Qed.

Lemma append_nil_r (a : string) : a +:+ "" = a.
Proof. induction a as [|x a IH]; simpl; [reflexivity|]. by rewrite IH. Qed.

Lemma length_append (a b : string) :
  String.length (a +:+ b) = (String.length a + String.length b)%nat.
Proof. induction a as [|x a IH]; simpl; [reflexivity|]. by rewrite IH. Qed.

(** Reading the escape of a character gives the character back. *)
Lemma scanstring_char c tail :
  scanstring (encode_char c +:+ tail) =
  match scanstring tail with
  | Some (t, r) => Some (String c t, r)
  | None => None
  end.
Proof. destruct c as [[] [] [] [] [] [] [] []]; reflexivity. Qed.

Lemma scanstring_encode s rest :
  scanstring (encode_chars s +:+ String quote rest) = Some (s, rest).
Proof.
  induction s as [|c s IH]; [reflexivity|].
  simpl encode_chars. by rewrite append_assoc, scanstring_char, IH.
Qed.

Lemma encode_str_append s rest :
  encode_str s +:+ rest = String quote (encode_chars s +:+ String quote rest).
Proof. unfold encode_str. simpl. by rewrite append_assoc. Qed.

Lemma scan_once_str s rest : scan_once (encode_str s +:+ rest) = Some (VStr s, rest).
Proof.
  rewrite encode_str_append.
  change (scan_once (String quote ?x)) with
    (match scanstring x with
     | Some (t, r') => Some (VStr t, r')
     | None => None
     end).
  by rewrite scanstring_encode.
Qed.

Lemma skip_ws_head c r : value_head c → skip_ws (String c r) = String c r.
Proof.
  intros [->|[->|[->|[->|[->|[->|[->|H]]]]]]]; try reflexivity.
  destruct c as [[] [] [] [] [] [] [] []]; try reflexivity;
    exfalso; apply H; reflexivity.
Qed.

(** A text that starts with a minus sign or a digit and holds a number is
    read as that number. *)
Lemma scan_once_number c r x :
  c = "-"%char ∨ char_digit c ≠ None →
  scan_number (String c r) = Some x → scan_once (String c r) = Some x.
Proof.
  intros [->|H] Hx.
  - change (scan_once (String "-" r))
      with (match scan_number (String "-" r) with
            | Some x => Some x
            | None => scan_constant (String "-" r)
            end).
    by rewrite Hx.
  - destruct c as [[] [] [] [] [] [] [] []];
      try (exfalso; apply H; reflexivity);
      match goal with
      | |- scan_once ?s = _ =>
          change (scan_once s)
            with (match scan_number s with
                  | Some x => Some x
                  | None => scan_constant s
                  end)
      end; by rewrite Hx.
Qed.

Lemma scan_number_digit d r :
  scan_number (String (digit_char d) r) = scan_unsigned false (String (digit_char d) r).
Proof. by destruct d. Qed.

(** A text that starts with the digits of a natural number is read as an
    unsigned number. *)
Lemma scan_once_unsigned n tail x :
  scan_unsigned false (NilEmpty.string_of_uint (N.to_uint n) +:+ tail) = Some x →
  scan_once (NilEmpty.string_of_uint (N.to_uint n) +:+ tail) = Some x.
Proof.
  destruct (N_text_head n) as (d & tl & ->). rewrite append_String.
  intros Hx. apply scan_once_number.
  - right. by rewrite char_digit_char.
  - by rewrite scan_number_digit.
Qed.

Lemma scan_once_negative tail x :
  scan_unsigned true tail = Some x → scan_once (String "-" tail) = Some x.
Proof. intros Hx. apply scan_once_number; [by left|exact Hx]. Qed.

Lemma encode_value_head v chunk :
  encode_value v = Some chunk → ∃ c tl, chunk = String c tl ∧ value_head c.
Proof.
  assert (Hnum : ∀ n tail, ∃ c tl,
            NilEmpty.string_of_uint (N.to_uint n) +:+ tail = String c tl ∧
            value_head c).
  { intros n tail. destruct (N_text_head n) as (d & tl & ->).
    exists (digit_char d), (tl +:+ tail). split; [done|].
    do 7 right. by rewrite char_digit_char. }
  unfold value_head in *.
  destruct v as [|[]|[|p|p]|[[[] ip tail]|[]|]|s|kvs]; simpl; intros [= <-];
    try (eexists _, _; split; [reflexivity|]; tauto).
  - destruct (Hnum 0%N "") as (c & tl & Hc & H). simpl in Hc. eauto.
  - destruct (Hnum (N.pos p) "") as (c & tl & Hc & H).
    rewrite append_nil_r in Hc. simpl in Hc. eauto.
  - unfold float_repr. simpl. apply Hnum.
Qed.

(** Reading the chunk of a value gives the value back. *)
Lemma scan_once_encode v chunk rest :
  encode_value v = Some chunk → token_end rest →
  scan_once (chunk +:+ rest) = Some (v, rest).
Proof.
  intros Hv Hrest.
  destruct v as [|[]|[|p|p]|[[neg ip tail]|[]|]|s|kvs]; simpl in Hv;
    try discriminate; injection Hv as <-; try reflexivity.
  - apply (scan_once_unsigned 0), (scan_unsigned_int false 0 rest Hrest).
  - change (NilEmpty.string_of_uint (Pos.to_uint p))
      with (NilEmpty.string_of_uint (N.to_uint (N.pos p))).
    apply scan_once_unsigned, (scan_unsigned_int false (N.pos p) rest Hrest).
  - rewrite append_String. apply scan_once_negative.
    apply (scan_unsigned_int true (N.pos p) rest Hrest).
  - unfold float_repr. simpl fl_neg. simpl fl_int. simpl fl_tail.
    destruct neg.
    + rewrite !append_assoc. rewrite append_String. apply scan_once_negative.
      by apply scan_unsigned_float.
    + rewrite !append_assoc. simpl. apply scan_once_unsigned.
      by apply scan_unsigned_float.
  - apply scan_once_str.
Qed.

Lemma skip_ws_chunk v chunk rest :
  encode_value v = Some chunk → skip_ws (chunk +:+ rest) = chunk +:+ rest.
Proof.
  intros Hv. destruct (encode_value_head _ _ Hv) as (c & tl & -> & Hc).
  rewrite append_String. by apply skip_ws_head.
Qed.

(** The text of the items after the first: [}] or a comma and more. *)
Lemma iterencode_items_end d text rest :
  iterencode_items false d = (text, None) → token_end (text +:+ rest).
Proof.
  destruct d as [|[k v] d]; simpl.
  - intros [= <-]. constructor.
  - destruct (encode_value v); [|discriminate].
    destruct (iterencode_items false d). intros [= <- _]. constructor.
Qed.

Lemma scan_members_print d : ∀ k v chunk text fuel rest,
  encode_value v = Some chunk →
  iterencode_items false d = (text, None) →
  (length d < fuel)%nat →
  scan_members fuel
    (encode_chars k +:+
     String quote (String ":" (String " " (chunk +:+ text +:+ rest)))) =
  Some ((k, v) :: text_items d, rest).
Proof.
  induction d as [|[k' v'] d IH]; intros k v chunk text fuel rest Hv Ht Hf;
    (destruct fuel as [|fuel]; [simpl in Hf; lia|]);
    cbn [scan_members]; rewrite scanstring_encode;
    simpl skip_ws; cbv beta iota; simpl skip_ws;
    rewrite (skip_ws_chunk v) by done;
    rewrite (scan_once_encode v) by (done || by eapply iterencode_items_end).
  - simpl in Ht. injection Ht as <-. reflexivity.
  - simpl in Ht. destruct (encode_value v') as [chunk'|] eqn:Hv'; [|discriminate].
    destruct (iterencode_items false d) as [text' e] eqn:Ht'.
    injection Ht as <- ->. simpl. rewrite !append_assoc. simpl.
    rewrite (IH (key_str k') v' chunk' text' fuel rest) by (done || simpl in Hf; lia).
    reflexivity.
Qed.

Lemma iterencode_items_length first d text e :
  iterencode_items first d = (text, e) → e = None →
  (length d < String.length text)%nat.
Proof.
  revert first text. induction d as [|[k v] d IH]; intros first text; simpl.
  - intros [= <- <-] _. simpl. lia.
  - destruct (encode_value v); [|by intros [= <- <-]].
    destruct (iterencode_items false d) as [text' e'] eqn:Ht.
    intros [= <- <-] ->. specialize (IH _ _ Ht eq_refl).
    rewrite !length_append. unfold encode_str. simpl. lia.
Qed.

(** What [json.load] reads in the text of [json.dump] are the items
    that were dumped, in their order, each under the string that the
    encoder made of its key. *)
Lemma json_loads_iterencode d text :
  iterencode d = (text, None) →
  json_loads text = Some (py_dict (str_items (text_items d))).
Proof.
  destruct d as [|[k v] d]; [by intros [= <-]|].
  unfold iterencode.
  destruct (iterencode_items true ((k, v) :: d)) as [text1 e] eqn:H1.
  intros [= <- ->].
  pose proof (iterencode_items_length _ _ _ _ H1 eq_refl) as Hlen.
  simpl in H1. destruct (encode_value v) as [chunk|] eqn:Hv; [|discriminate].
  destruct (iterencode_items false d) as [text' e] eqn:Ht.
  injection H1 as <- ->.
  unfold json_loads. simpl skip_ws. cbv iota. unfold scan_object.
  remember (String.length _) as fuel eqn:Hfuel in *. clear Hfuel.
  simpl skip_ws. cbv beta iota. simpl Ascii.eqb. cbv iota.
  rewrite !append_assoc. simpl.
  pose proof (scan_members_print d (key_str k) v chunk text' fuel "" Hv Ht) as H0.
  rewrite append_nil_r in H0. rewrite H0 by (simpl in Hlen; lia).
  reflexivity.
Qed.

Lemma text_items_str (l : parameters) : text_items (str_items l) = l.
Proof.
  unfold text_items, str_items. rewrite map_map. simpl.
  induction l as [|[k v] l IH]; simpl; [done|]. by rewrite IH.
Qed.

Lemma str_items_app (l1 l2 : parameters) :
  str_items (l1 ++ l2) = str_items l1 ++ str_items l2.
Proof. apply map_app. Qed.

Lemma dict_set_fresh k v (l : parameters) :
  ¬ In k (map fst l) → dict_set (KStr k) v (str_items l) = str_items (l ++ [(k, v)]).
Proof.
  induction l as [|[k' v'] l IH]; simpl; [done|]. intros H.
  destruct (String.eqb_spec k k') as [->|_]; [tauto|].
  rewrite IH by tauto. reflexivity.
Qed.

(** Items with distinct string keys are the dict they make. *)
Lemma py_dict_NoDup (l : parameters) :
  NoDup (map fst l) → py_dict (str_items l) = str_items l.
Proof.
  unfold py_dict. intros H.
  assert (Hgen : ∀ acc : parameters, NoDup (map fst (acc ++ l)) →
            fold_left (λ d kv, dict_set kv.1 kv.2 d) (str_items l) (str_items acc)
            = str_items (acc ++ l)).
  { clear H. induction l as [|[k v] l IH]; intros acc Hacc; simpl.
    - by rewrite app_nil_r.
    - rewrite dict_set_fresh.
      + rewrite IH; rewrite <- app_assoc; [done|]. simpl. done.
      + rewrite map_app in Hacc. simpl in Hacc.
        apply NoDup_app in Hacc as (_ & Hacc & _). intros Hin.
        apply (Hacc k); [by apply list_elem_of_In|]. left. }
  by apply (Hgen []).
Qed.

(** The round trip of the hyperparameters: the text that [json.dump]
    writes for a dict of scalars with distinct string keys is read back by
    [json.load] as that dict. *)
Lemma json_round_trip (l : parameters) text :
  NoDup (map fst l) → iterencode (str_items l) = (text, None) →
  json_loads text = Some (str_items l).
Proof.
  intros Hd Ht. rewrite (json_loads_iterencode _ text Ht), text_items_str.
  by rewrite py_dict_NoDup.
Qed.

(** ** Step selection *)

Lemma contains_In name l : contains name l = true ↔ In name l.
Proof.
  unfold contains. rewrite existsb_exists. split.
  - intros (x & Hx & Heq). apply String.eqb_eq in Heq. by subst.
  - intros H. exists name. split; [done|]. apply String.eqb_refl.
Qed.

Lemma selected_In s active_steps :
  In s (selected active_steps) ↔ In (step_name s) active_steps.
Proof.
  unfold selected. rewrite filter_In, contains_In. split; [tauto|].
  intros H. split; [|done]. destruct s; simpl; tauto.
Qed.

(** The selected blocks keep the order of the blocks of [go]. *)
Lemma selected_sublist active_steps : sublist (selected active_steps) blocks.
Proof.
  unfold selected, blocks. cbn [List.filter step_name].
  destruct (contains "download" active_steps),
           (contains "basic_cleaning" active_steps),
           (contains "data_check" active_steps),
           (contains "data_split" active_steps),
           (contains "train_random_forest" active_steps),
           (contains "test_regression_model" active_steps);
    repeat (apply sublist_skip || apply sublist_cons || apply sublist_nil).
Qed.

(** Only the names of blocks matter to the selection. *)
Lemma selected_ext active active' :
  (∀ s, In (step_name s) active ↔ In (step_name s) active') →
  selected active = selected active'.
Proof.
  intros H. unfold selected. apply filter_ext_in. intros s _.
  specialize (H s). rewrite <- !contains_In in H.
  destruct (contains (step_name s) active), (contains (step_name s) active');
    intuition congruence.
Qed.

Lemma invoked_go_with (e1 e2 e3 e4 : event) t :
  invoked [e1; e2; e3] = [] → invoked [e4] = [] →
  invoked ([e1; e2; e3] ++ t ++ [e4]) = invoked t.
Proof.
  intros H1 H2. by rewrite !invoked_app, H1, H2, app_nil_r.
Qed.

(** The steps a run of [go] invokes are an initial segment of the
    selected blocks, and all of them when the run completes. *)
Lemma go_run_selected host run_succeeds config os r t active_steps :
  go_run host run_succeeds config os r t →
  active_steps_of config = Ok active_steps →
  ∃ rest, selected active_steps = invoked t ++ rest ∧ (r = Ok () → rest = []).
Proof.
  intros Hrun Ha.
  destruct Hrun as [e| | | |project experiment active tmp_dir r t _ _ Ha' _ Hb];
    try (by exists (selected active_steps)).
  rewrite invoked_go_with by done.
  assert (active = active_steps) as -> by congruence.
  by eapply outcome_invoked.
Qed.

Lemma active_steps_of_str config sel :
  getitem2 config "main" "steps" = Ok (VStr sel) →
  active_steps_of config = Ok (if String.eqb sel "all" then _steps else split "," sel).
Proof.
  intros H. unfold active_steps_of. rewrite H. simpl.
  by destruct (String.eqb sel "all").
Qed.

(** A run in which something other than the setting of an environment
    variable happens has entered the [with] statement. *)
Lemma go_run_entered host run_succeeds config os r t e :
  go_run host run_succeeds config os r t → In e t → is_setenv e = false →
  ∃ project experiment active_steps tmp_dir tb,
    env_value config "project_name" = Ok project ∧
    env_value config "experiment_name" = Ok experiment ∧
    active_steps_of config = Ok active_steps ∧
    List.find (λ p, negb (path_exists os p)) (candidate_names host) = Some tmp_dir ∧
    blocks_outcome host run_succeeds config (body_dirs os tmp_dir)
      (selected active_steps) = (r, tb) ∧
    t = [EvSetEnv "WANDB_PROJECT" project; EvSetEnv "WANDB_RUN_GROUP" experiment;
         EvMkdtemp tmp_dir] ++ tb ++ [EvCleanup tmp_dir].
Proof.
  intros Hrun Hin He.
  destruct Hrun as [| | | |project experiment active tmp_dir r t Hp Hx Ha Hd Hb];
    try (simpl in Hin; intuition (subst; discriminate)).
  by exists project, experiment, active, tmp_dir, t.
Qed.

(** The temporary directory of a run is the one its events name. *)
Lemma go_run_mkdtemp host run_succeeds config os r t tmp_dir :
  go_run host run_succeeds config os r t → In (EvMkdtemp tmp_dir) t →
  ∃ project experiment active_steps tb,
    env_value config "project_name" = Ok project ∧
    env_value config "experiment_name" = Ok experiment ∧
    active_steps_of config = Ok active_steps ∧
    List.find (λ p, negb (path_exists os p)) (candidate_names host) = Some tmp_dir ∧
    blocks_outcome host run_succeeds config (body_dirs os tmp_dir)
      (selected active_steps) = (r, tb) ∧
    t = [EvSetEnv "WANDB_PROJECT" project; EvSetEnv "WANDB_RUN_GROUP" experiment;
         EvMkdtemp tmp_dir] ++ tb ++ [EvCleanup tmp_dir].
Proof.
  intros Hrun Hd.
  destruct (go_run_entered _ _ _ _ _ _ _ Hrun Hd eq_refl)
    as (p & x & a & d & tb & Hp & Hx & Ha & Hfind & Hb & Heq).
  assert (d = tmp_dir) as ->.
  { rewrite Heq in Hd. simpl in Hd. rewrite in_app_iff in Hd. simpl in Hd.
    destruct Hd as [H|[H|[H|[H|[H|[]]]]]]; try discriminate; [congruence|].
    pose proof (outcome_body _ _ _ _ _ _ _ Hb) as Hall.
    rewrite Forall_forall in Hall. apply list_elem_of_In in H.
    by pose proof (Hall _ H). }
  by exists p, x, a, tb.
Qed.

(** A run that completes has entered the [with] statement. *)
Lemma go_run_Ok host run_succeeds config os t :
  go_run host run_succeeds config os (Ok ()) t →
  ∃ project experiment active_steps tmp_dir tb,
    env_value config "project_name" = Ok project ∧
    env_value config "experiment_name" = Ok experiment ∧
    active_steps_of config = Ok active_steps ∧
    List.find (λ p, negb (path_exists os p)) (candidate_names host) = Some tmp_dir ∧
    blocks_outcome host run_succeeds config (body_dirs os tmp_dir)
      (selected active_steps) = (Ok (), tb) ∧
    t = [EvSetEnv "WANDB_PROJECT" project; EvSetEnv "WANDB_RUN_GROUP" experiment;
         EvMkdtemp tmp_dir] ++ tb ++ [EvCleanup tmp_dir].
Proof.
  intros Hrun. inversion Hrun as [| | | |project experiment active tmp_dir r' t' Hp Hx Ha Hd Hb];
    subst.
  by exists project, experiment, active, tmp_dir, t'.
Qed.

(** The runs among the events of [go] are those of its body. *)
Lemma go_run_In_run host run_succeeds config os r t s i :
  go_run host run_succeeds config os r t → In (EvRun s i) t →
  ∃ active_steps tmp_dir tb,
    active_steps_of config = Ok active_steps ∧
    In (EvMkdtemp tmp_dir) t ∧
    blocks_outcome host run_succeeds config (body_dirs os tmp_dir)
      (selected active_steps) = (r, tb) ∧
    In (EvRun s i) tb.
Proof.
  intros Hrun Hin.
  destruct (go_run_entered _ _ _ _ _ _ _ Hrun Hin eq_refl)
    as (p & x & active & d & tb & _ & _ & Ha & _ & Hb & ->).
  exists active, d, tb. split; [done|]. split; [simpl; tauto|]. split; [done|].
  simpl in Hin. rewrite in_app_iff in Hin. simpl in Hin.
  intuition discriminate.
Qed.

Lemma go_run_setup host run_succeeds config os r t active_steps tmp_dir :
  go_run host run_succeeds config os r t →
  setup_succeeds host config os active_steps tmp_dir →
  ∃ project experiment tb,
    blocks_outcome host run_succeeds config (body_dirs os tmp_dir)
      (selected active_steps) = (r, tb) ∧
    t = [EvSetEnv "WANDB_PROJECT" project; EvSetEnv "WANDB_RUN_GROUP" experiment;
         EvMkdtemp tmp_dir] ++ tb ++ [EvCleanup tmp_dir].
Proof.
  intros Hrun ((p & Hp) & (x & Hx) & Ha & Hf).
  destruct Hrun as [| | | |project experiment active d r t _ _ Ha' Hd Hb];
    try congruence.
  assert (active = active_steps) as -> by congruence.
  assert (d = tmp_dir) as -> by congruence.
  by exists project, experiment, t.
Qed.

(** A selected block is run as soon as the setup has succeeded, the
    selected blocks before it have passed, and it resolves. *)
Lemma go_run_reaches host run_succeeds config os r t active_steps tmp_dir
    pre s post i :
  go_run host run_succeeds config os r t →
  setup_succeeds host config os active_steps tmp_dir →
  selected active_steps = pre ++ s :: post →
  Forall (passes host run_succeeds config (body_dirs os tmp_dir)) pre →
  prepare host config (body_dirs os tmp_dir) s = Ok i → In (EvRun s i) t.
Proof.
  intros Hrun Hsetup Hsel Hpre Hi.
  destruct (go_run_setup _ _ _ _ _ _ _ _ Hrun Hsetup) as (p & x & tb & Hb & ->).
  rewrite Hsel in Hb. apply in_app_iff. right. apply in_app_iff. left.
  exact (outcome_reaches host run_succeeds config _ pre s post r tb i Hb Hpre Hi).
Qed.

(** [test_regression_model] is the last block of [go]. *)
Lemma selected_last active_steps :
  In test_regression_model (selected active_steps) →
  ∃ pre, selected active_steps = pre ++ [test_regression_model].
Proof.
  intros H. apply selected_In, contains_In in H.
  exists (List.filter (λ s, contains (step_name s) active_steps)
            [download; basic_cleaning; data_check; data_split; train_random_forest]).
  unfold selected, blocks. cbn [List.filter step_name]. cbn [step_name] in H.
  rewrite H.
  destruct (contains "download" active_steps),
           (contains "basic_cleaning" active_steps),
           (contains "data_check" active_steps),
           (contains "data_split" active_steps),
           (contains "train_random_forest" active_steps); reflexivity.
Qed.

(** C1: when the step selection is ["all"], the active steps are the
    registry [_steps], the blocks selected are its five steps in its order,
    without [test_regression_model]; a run invokes an initial segment of
    the registry, and the whole registry when it completes. *)
Theorem all_selects_registry host run_succeeds config os r os' t :
  getitem2 config "main" "steps" = Ok (VStr "all") →
  go host run_succeeds config os = (r, os', t) →
  active_steps_of config = Ok _steps ∧
  map step_name (selected _steps) = _steps ∧
  (∃ rest, _steps = map step_name (invoked t) ++ rest) ∧
  (r = Ok () → map step_name (invoked t) = _steps) ∧
  ¬ In test_regression_model (invoked t).
Proof.
  intros Hsteps Hgo. apply go_spec in Hgo as [Hrun _].
  pose proof (active_steps_of_str _ _ Hsteps) as Ha. simpl in Ha.
  destruct (go_run_selected _ _ _ _ _ _ _ Hrun Ha) as (rest & Hsel & Hok).
  split; [done|]. split; [reflexivity|].
  assert (Hmap : _steps = map step_name (invoked t) ++ map step_name rest).
  { rewrite <- map_app, <- Hsel. reflexivity. }
  split; [by eexists|]. split.
  - intros ->. rewrite Hok in Hmap by done. by rewrite app_nil_r in Hmap.
  - intros Hin.
    assert (In test_regression_model (selected _steps)) as Hin'.
    { rewrite Hsel. apply in_app_iff. by left. }
    vm_compute in Hin'. intuition discriminate.
Qed.

Lemma all_selects_registry_witness :
  getitem2 (example_config "all") "main" "steps" = Ok (VStr "all") ∧
  map step_name
    (invoked (go example_host all_succeed (example_config "all") empty_os).2)
  = _steps.
Proof.
  split; [reflexivity|].
  pose (run := go example_host all_succeed (example_config "all") empty_os).
  apply (all_selects_registry example_host all_succeed (example_config "all")
           empty_os run.1.1 run.1.2 run.2); reflexivity.
Defined.

(** C2: when the step selection is a comma-separated list, a block is
    selected exactly when its name is one of the pieces of the list, the
    selected blocks keep the order of the blocks of [go] whatever the order
    of the pieces, and a run invokes an initial segment of them, all of them
    when it completes. *)
Theorem explicit_selection host run_succeeds config sel os r os' t :
  getitem2 config "main" "steps" = Ok (VStr sel) → sel ≠ "all" →
  go host run_succeeds config os = (r, os', t) →
  active_steps_of config = Ok (split "," sel) ∧
  (∀ s, In s (selected (split "," sel)) ↔ In (step_name s) (split "," sel)) ∧
  sublist (selected (split "," sel)) blocks ∧
  (∀ sel', (∀ name, In name (split "," sel') ↔ In name (split "," sel)) →
           selected (split "," sel') = selected (split "," sel)) ∧
  (∃ rest, selected (split "," sel) = invoked t ++ rest) ∧
  sublist (invoked t) blocks ∧
  (∀ s, In s (invoked t) → In (step_name s) (split "," sel)) ∧
  (r = Ok () → invoked t = selected (split "," sel)) ∧
  (∀ tmp_dir pre s post i,
     setup_succeeds host config os (split "," sel) tmp_dir →
     selected (split "," sel) = pre ++ s :: post →
     Forall (passes host run_succeeds config (body_dirs os tmp_dir)) pre →
     prepare host config (body_dirs os tmp_dir) s = Ok i → In (EvRun s i) t).
Proof.
  intros Hsteps Hall Hgo. apply go_spec in Hgo as [Hrun _].
  pose proof (active_steps_of_str _ _ Hsteps) as Ha.
  apply String.eqb_neq in Hall. rewrite Hall in Ha.
  destruct (go_run_selected _ _ _ _ _ _ _ Hrun Ha) as (rest & Hsel & Hok).
  split; [done|]. split; [intros s; apply selected_In|].
  split; [apply selected_sublist|].
  split; [intros sel' H; apply selected_ext; intros s; apply H|].
  split; [by eexists|]. split; [|split; [|split]].
  - transitivity (selected (split "," sel)); [|apply selected_sublist].
    rewrite Hsel. by apply sublist_inserts_r.
  - intros s Hs. apply selected_In. rewrite Hsel. apply in_app_iff. by left.
  - intros ->. rewrite Hsel, Hok by done. by rewrite app_nil_r.
  - intros tmp_dir pre s post i Hsetup Hpre Hpass Hi.
    by eapply go_run_reaches.
Qed.

Lemma explicit_selection_witness :
  getitem2 (example_config "data_check,download") "main" "steps"
    = Ok (VStr "data_check,download") ∧
  "data_check,download" ≠ "all" ∧
  invoked (go example_host all_succeed (example_config "data_check,download")
             empty_os).2
  = [download; data_check].
Proof.
  split; [reflexivity|]. split; [discriminate|].
  pose (run := go example_host all_succeed (example_config "data_check,download")
                 empty_os).
  apply (explicit_selection example_host all_succeed
           (example_config "data_check,download") "data_check,download"
           empty_os run.1.1 run.1.2 run.2); (reflexivity || discriminate).
Defined.

(** C3: when the comma-separated selection holds the name
    [test_regression_model], the guard of its block holds and the block is
    selected, so that a run that completes has invoked it, with the
    invocation its configuration gives; only the registry that ["all"]
    stands for leaves it out. *)
Theorem explicit_test_regression_model host run_succeeds config sel os r os' t :
  getitem2 config "main" "steps" = Ok (VStr sel) → sel ≠ "all" →
  In "test_regression_model" (split "," sel) →
  go host run_succeeds config os = (r, os', t) →
  contains "test_regression_model" (split "," sel) = true ∧
  In test_regression_model (selected (split "," sel)) ∧
  (r = Ok () →
   ∃ i, test_regression_model_call config = Ok i ∧
        In (EvRun test_regression_model i) t) ∧
  (∃ pre, selected (split "," sel) = pre ++ [test_regression_model] ∧
     ∀ tmp_dir i,
       setup_succeeds host config os (split "," sel) tmp_dir →
       Forall (passes host run_succeeds config (body_dirs os tmp_dir)) pre →
       test_regression_model_call config = Ok i →
       In (EvRun test_regression_model i) t) ∧
  ¬ In test_regression_model (selected _steps).
Proof.
  intros Hsteps Hall Hin Hgo. apply go_spec in Hgo as [Hrun _].
  pose proof (active_steps_of_str _ _ Hsteps) as Ha.
  apply String.eqb_neq in Hall. rewrite Hall in Ha.
  assert (Hsel : In test_regression_model (selected (split "," sel)))
    by by apply selected_In.
  split; [by apply contains_In|]. split; [done|]. split; [|split].
  - intros ->.
    destruct (go_run_selected _ _ _ _ _ _ _ Hrun Ha) as (rest & Heq & Hok).
    rewrite Heq, Hok, app_nil_r in Hsel by done.
    apply invoked_In in Hsel as (i & Hi). exists i. split; [|done].
    destruct (go_run_In_run _ _ _ _ _ _ _ _ Hrun Hi)
      as (a & d & tb & _ & _ & Hb & Hitb).
    by destruct (outcome_run _ _ _ _ _ _ _ _ _ Hb Hitb) as [_ Hres].
  - destruct (selected_last _ Hsel) as (pre & Hpre). exists pre. split; [done|].
    intros tmp_dir i Hsetup Hpass Hi.
    by eapply (go_run_reaches host run_succeeds config os r t (split "," sel)
                 tmp_dir pre test_regression_model []).
  - vm_compute. intuition discriminate.
Qed.

Lemma explicit_test_regression_model_witness :
  In "test_regression_model" (split "," "download,test_regression_model") ∧
  In test_regression_model
    (invoked (go example_host all_succeed
                (example_config "download,test_regression_model") empty_os).2).
Proof.
  split; [right; by left|].
  pose (run := go example_host all_succeed
                 (example_config "download,test_regression_model") empty_os).
  destruct (explicit_test_regression_model example_host all_succeed
              (example_config "download,test_regression_model")
              "download,test_regression_model" empty_os run.1.1 run.1.2 run.2)
    as (_ & _ & H & _); [reflexivity|discriminate|right; by left|reflexivity|].
  destruct (H eq_refl) as (i & _ & Hi). apply invoked_In. by exists i.
Defined.

Lemma split_nonempty sep s : split sep s ≠ [].
Proof.
  destruct s as [|c s]; simpl; [done|].
  destruct (Ascii.eqb c sep); [done|]. by destruct (split sep s).
Qed.

Lemma comma_join_cons c piece pieces :
  comma_join (String c piece :: pieces) = String c (comma_join (piece :: pieces)).
Proof. by destruct pieces. Qed.

(** Nothing is stripped by [split]: the pieces, joined by commas, are the
    string. *)
Lemma comma_join_split s : comma_join (split "," s) = s.
Proof.
  induction s as [|c s IH]; [reflexivity|]. simpl.
  destruct (Ascii.eqb_spec c ",") as [->|Hc].
  - pose proof (split_nonempty "," s) as Hne.
    destruct (split "," s) as [|piece pieces]; [done|].
    simpl in *. by rewrite IH.
  - pose proof (split_nonempty "," s) as Hne.
    destruct (split "," s) as [|piece pieces]; [done|].
    by rewrite comma_join_cons, IH.
Qed.

Lemma spaced_piece_no_step piece s : has_space piece = true → step_name s ≠ piece.
Proof. intros H <-. by destruct s. Qed.

(** C9: the selection is cut at each comma and nothing else is done to
    the pieces: joined again they give the string back, a block is guarded
    by the presence of a piece equal to its name, a piece with a space is
    the name of no block, and only the string ["all"] stands for the
    registry.  So ["download, data_check"] selects [download] alone and
    ["All"] selects nothing. *)
Theorem selection_is_literal host run_succeeds config sel os r os' t :
  getitem2 config "main" "steps" = Ok (VStr sel) → sel ≠ "all" →
  go host run_succeeds config os = (r, os', t) →
  active_steps_of config = Ok (split "," sel) ∧
  comma_join (split "," sel) = sel ∧
  (∀ name, contains name (split "," sel) = true ↔ In name (split "," sel)) ∧
  (∀ piece s, has_space piece = true → step_name s ≠ piece) ∧
  (∀ s, In s (invoked t) → In (step_name s) (split "," sel)) ∧
  split "," "download, data_check" = ["download"; " data_check"] ∧
  selected (split "," "download, data_check") = [download] ∧
  select (VStr "All") = Ok ["All"] ∧
  selected ["All"] = [].
Proof.
  intros Hsteps Hall Hgo. apply go_spec in Hgo as [Hrun _].
  pose proof (active_steps_of_str _ _ Hsteps) as Ha.
  apply String.eqb_neq in Hall. rewrite Hall in Ha.
  destruct (go_run_selected _ _ _ _ _ _ _ Hrun Ha) as (rest & Hsel & Hok).
  split; [done|]. split; [apply comma_join_split|].
  split; [intros name; apply contains_In|].
  split; [apply spaced_piece_no_step|]. split; [|done].
  intros s Hs. apply selected_In. rewrite Hsel. apply in_app_iff. by left.
Qed.

Lemma selection_is_literal_witness :
  "download, data_check" ≠ "all" ∧
  ¬ In data_check
      (invoked (go example_host all_succeed
                  (example_config "download, data_check") empty_os).2).
Proof.
  split; [discriminate|].
  pose (run := go example_host all_succeed
                 (example_config "download, data_check") empty_os).
  destruct (selection_is_literal example_host all_succeed
              (example_config "download, data_check")
              "download, data_check" empty_os run.1.1 run.1.2 run.2)
    as (_ & _ & _ & _ & H & _); [reflexivity|discriminate|reflexivity|].
  intros Hin. apply H in Hin. simpl in Hin. intuition discriminate.
Defined.





(** ** The environment and the temporary directory *)

Lemma Forall_In {A} (P : A → Prop) l x : Forall P l → In x l → P x.
Proof. intros H Hin. rewrite Forall_forall in H. apply H. by apply list_elem_of_In. Qed.

Lemma body_event_not_setenv e : body_event e = true → is_setenv e = false.
Proof. by destruct e. Qed.

Lemma environ_replay os t :
  Forall (λ e, is_setenv e = false) t → environ (replay os t) = environ os.
Proof.
  revert os. induction t as [|e t IH]; intros os Ht; [reflexivity|].
  inversion Ht as [|? ? He Ht']; subst. unfold replay in *. simpl.
  rewrite IH by done. by destruct e.
Qed.

Lemma dirs_replay_body os t :
  Forall (λ e, body_event e = true) t → dirs (replay os t) = dirs os.
Proof.
  revert os. induction t as [|e t IH]; intros os Ht; [reflexivity|].
  inversion Ht as [|? ? He Ht']; subst. unfold replay in *. simpl.
  rewrite IH by done. by destruct e.
Qed.

(** C7: [go] sets the two variables first of all, [WANDB_PROJECT] to
    [main.project_name] and then [WANDB_RUN_GROUP] to
    [main.experiment_name], and sets no variable later.  When both names
    are strings that a variable can hold, every run starts with these two
    events, which are the only ones that set a variable: each variable is
    set exactly once, before the temporary directory is made and before
    any step is run, and the environment that the run leaves is the one
    these two assignments made.  When a name is not such a string, [go]
    raises at its assignment, having made the earlier one only, and runs
    nothing. *)
Theorem environment_set_once host run_succeeds config os r os' t :
  go host run_succeeds config os = (r, os', t) →
  (∀ p x, env_value config "project_name" = Ok p →
          env_value config "experiment_name" = Ok x →
     ∃ rest,
       t = EvSetEnv "WANDB_PROJECT" p :: EvSetEnv "WANDB_RUN_GROUP" x :: rest ∧
       Forall (λ e, is_setenv e = false) rest ∧
       List.filter is_setenv t
         = [EvSetEnv "WANDB_PROJECT" p; EvSetEnv "WANDB_RUN_GROUP" x] ∧
       (∀ t1 s i t2, t = t1 ++ EvRun s i :: t2 →
          ∃ t1', t1 = EvSetEnv "WANDB_PROJECT" p
                      :: EvSetEnv "WANDB_RUN_GROUP" x :: t1') ∧
       environ os' =
         <["WANDB_RUN_GROUP" := x]> (<["WANDB_PROJECT" := p]> (environ os))) ∧
  (∀ p e, env_value config "project_name" = Ok p →
          env_value config "experiment_name" = Raise e →
     r = Raise e ∧ t = [EvSetEnv "WANDB_PROJECT" p] ∧
     environ os' = <["WANDB_PROJECT" := p]> (environ os)) ∧
  (∀ e, env_value config "project_name" = Raise e →
     r = Raise e ∧ t = [] ∧ os' = os).
Proof.
  intros Hgo. apply go_spec in Hgo as [Hrun ->].
  assert (Hboth : ∀ p x rest, Forall (λ e, is_setenv e = false) rest →
    Forall (λ e, is_setenv e = false) rest ∧
    List.filter is_setenv
      (EvSetEnv "WANDB_PROJECT" p :: EvSetEnv "WANDB_RUN_GROUP" x :: rest)
      = [EvSetEnv "WANDB_PROJECT" p; EvSetEnv "WANDB_RUN_GROUP" x] ∧
    (∀ t1 s i t2,
       EvSetEnv "WANDB_PROJECT" p :: EvSetEnv "WANDB_RUN_GROUP" x :: rest
       = t1 ++ EvRun s i :: t2 →
       ∃ t1', t1 = EvSetEnv "WANDB_PROJECT" p
                   :: EvSetEnv "WANDB_RUN_GROUP" x :: t1') ∧
    environ (replay os (EvSetEnv "WANDB_PROJECT" p
                        :: EvSetEnv "WANDB_RUN_GROUP" x :: rest)) =
      <["WANDB_RUN_GROUP" := x]> (<["WANDB_PROJECT" := p]> (environ os))).
  { intros p x rest Hrest. split_and!; [done| | |].
    - simpl. f_equal. f_equal. induction Hrest as [|e rest He _ IH]; [done|].
      simpl. by rewrite He.
    - intros t1 s i t2 Ht. destruct t1 as [|e1 [|e2 t1]]; try discriminate.
      injection Ht as <- <- _. by eexists.
    - change (EvSetEnv "WANDB_PROJECT" p :: EvSetEnv "WANDB_RUN_GROUP" x :: rest)
        with ([EvSetEnv "WANDB_PROJECT" p; EvSetEnv "WANDB_RUN_GROUP" x] ++ rest).
      by rewrite replay_app, environ_replay. }
  split_and!.
  - intros p0 x0 Hp0 Hx0.
    destruct Hrun as [e Hp|p e Hp Hx|p x e Hp Hx Ha|p x a Hp Hx Ha Hd
                      |p x a d r t Hp Hx Ha Hd Hb]; try congruence;
      assert (p = p0) as -> by congruence; assert (x = x0) as -> by congruence.
    + exists []. split; [done|]. by apply Hboth.
    + exists []. split; [done|]. by apply Hboth.
    + exists (EvMkdtemp d :: t ++ [EvCleanup d]). split; [done|].
      apply Hboth. constructor; [done|].
      apply Forall_app. split; [|by repeat constructor].
      eapply Forall_impl; [by eapply outcome_body|].
      apply body_event_not_setenv.
  - intros p0 e0 Hp0 Hx0.
    destruct Hrun as [e Hp|p e Hp Hx|p x e Hp Hx Ha|p x a Hp Hx Ha Hd
                      |p x a d r t Hp Hx Ha Hd Hb]; try congruence.
    assert (p = p0) as -> by congruence. assert (e = e0) as -> by congruence.
    done.
  - intros e0 Hp0.
    destruct Hrun as [e Hp|p e Hp Hx|p x e Hp Hx Ha|p x a Hp Hx Ha Hd
                      |p x a d r t Hp Hx Ha Hd Hb]; try congruence.
    assert (e = e0) as -> by congruence. done.
Qed.

Lemma environment_set_once_witness :
  environ stale_os !! "WANDB_PROJECT" = Some "old_project" ∧
  ∃ rest,
    (go example_host data_check_fails (example_config "all") stale_os).2
    = EvSetEnv "WANDB_PROJECT" "nyc_airbnb"
      :: EvSetEnv "WANDB_RUN_GROUP" "development" :: rest ∧
    Forall (λ e, is_setenv e = false) rest ∧
    environ (go example_host data_check_fails (example_config "all") stale_os).1.2
    = <["WANDB_RUN_GROUP" := "development"]>
        (<["WANDB_PROJECT" := "nyc_airbnb"]> (environ stale_os)).
Proof.
  split; [reflexivity|].
  pose (run := go example_host data_check_fails (example_config "all") stale_os).
  destruct (environment_set_once example_host data_check_fails
              (example_config "all") stale_os run.1.1 run.1.2 run.2 eq_refl)
    as (H & _ & _).
  destruct (H "nyc_airbnb" "development" eq_refl eq_refl)
    as (rest & Ht & Hrest & _ & _ & Henv).
  exists rest. split; [exact Ht|]. split; [exact Hrest|exact Henv].
Defined.

(** Where a run of a step sits among the events of a run of [go] that
    entered the [with] statement. *)
Lemma with_events_split (e1 e2 e3 e4 : event) tb t1 s i t2 :
  (∀ s' i', e1 ≠ EvRun s' i' ∧ e2 ≠ EvRun s' i' ∧ e3 ≠ EvRun s' i' ∧
            e4 ≠ EvRun s' i') →
  [e1; e2; e3] ++ tb ++ [e4] = t1 ++ EvRun s i :: t2 →
  ∃ tb1 tb2, t1 = [e1; e2; e3] ++ tb1 ∧ tb = tb1 ++ EvRun s i :: tb2 ∧
             t2 = tb2 ++ [e4].
Proof.
  intros Hne H. destruct (Hne s i) as (H1 & H2 & H3 & H4).
  apply app_split_absent in H as (tb1 & -> & H).
  2:{ simpl. intuition congruence. }
  exists tb1. destruct (decide (t2 = [])) as [->|Hnil].
  - exfalso. apply app_inj_tail in H as [_ H]. congruence.
  - destruct (exists_last Hnil) as (tb2 & z & ->).
    change (tb1 ++ EvRun s i :: tb2 ++ [z])
      with (tb1 ++ (EvRun s i :: tb2) ++ [z]) in H.
    rewrite app_assoc in H. apply app_inj_tail in H as [-> ->].
    by exists tb2.
Qed.

(** C6: in every run, whatever its result, each step is run after the
    temporary directory has been made and before it is cleaned up, at a
    time when the directory exists; and when the run is over, having
    completed or raised, the directory that was made, which did not exist
    before, is not in the file system any more, nor anything below it. *)
Theorem tmp_dir_lifetime host run_succeeds config os r os' t :
  go host run_succeeds config os = (r, os', t) →
  os' = replay os t ∧
  (∀ t1 s i t2, t = t1 ++ EvRun s i :: t2 →
     ∃ d, In (EvMkdtemp d) t1 ∧ ¬ In (EvCleanup d) t1 ∧
          (d ∈ dirs (replay os t1)) ∧
          (d ∈ dirs (replay os (t1 ++ [EvRun s i]))) ∧
          In (EvCleanup d) t2) ∧
  (∀ d, In (EvMkdtemp d) t →
     path_exists os d = false ∧
     last t = Some (EvCleanup d) ∧
     (d ∉ dirs os') ∧
     (∀ p, inside d p = true → (p ∉ dirs os') ∧ files os' !! p = None)) ∧
  (r = Ok () → ∃ d, In (EvMkdtemp d) t).
Proof.
  intros Hgo. apply go_spec in Hgo as [Hrun ->]. split; [done|].
  split; [|split].
  - intros t1 s i t2 Ht.
    assert (Hin : In (EvRun s i) t) by (rewrite Ht; apply in_app_iff; right; by left).
    destruct (go_run_entered _ _ _ _ _ _ _ Hrun Hin eq_refl)
      as (p & x & a & d & tb & _ & _ & _ & _ & Hb & Heq).
    rewrite Heq in Ht. apply with_events_split in Ht as (tb1 & tb2 & -> & Htb & ->).
    2:{ intros s' i'. repeat split; discriminate. }
    assert (Hbody : Forall (λ e, body_event e = true) tb1).
    { pose proof (outcome_body _ _ _ _ _ _ _ Hb) as Hall. rewrite Htb in Hall.
      by apply Forall_app in Hall as [Hall _]. }
    exists d. split; [simpl; tauto|]. split.
    { simpl. intros [H|[H|[H|H]]]; try discriminate.
      by pose proof (Forall_In _ _ _ Hbody H). }
    assert (Hd : ∀ tb', Forall (λ e, body_event e = true) tb' →
              d ∈ dirs (replay os
                ([EvSetEnv "WANDB_PROJECT" p; EvSetEnv "WANDB_RUN_GROUP" x;
                  EvMkdtemp d] ++ tb'))).
    { intros tb' Htb'. rewrite replay_app, dirs_replay_body by done.
      simpl. apply elem_of_union. left. by apply elem_of_singleton. }
    split; [by apply Hd|]. split.
    + rewrite <- app_assoc. apply Hd. apply Forall_app. split; [done|].
      by repeat constructor.
    + apply in_app_iff. right. by left.
  - intros d Hd.
    destruct (go_run_entered _ _ _ _ _ _ _ Hrun Hd eq_refl)
      as (p & x & a & d' & tb & _ & _ & _ & Hfind & Hb & Heq).
    assert (d' = d) as ->.
    { rewrite Heq in Hd. simpl in Hd. rewrite in_app_iff in Hd. simpl in Hd.
      destruct Hd as [H|[H|[H|[H|[H|[]]]]]]; try discriminate; [congruence|].
      pose proof (outcome_body _ _ _ _ _ _ _ Hb) as Hall.
      by pose proof (Forall_In _ _ _ Hall H). }
    split.
    { apply find_some in Hfind as [_ Hfind]. by apply negb_true_iff in Hfind. }
    split.
    { rewrite Heq. rewrite !app_assoc. apply last_snoc. }
    rewrite Heq, !app_assoc, replay_app. simpl. split.
    + intros H. apply elem_of_filter in H as [[H _] _]. done.
    + intros q Hq. split.
      * intros H. apply elem_of_filter in H as [[_ H] _]. congruence.
      * apply map_lookup_filter_None. right. intros v _. simpl. congruence.
  - intros ->. destruct (go_run_Ok _ _ _ _ _ Hrun)
      as (p & x & a & d & tb & _ & _ & _ & _ & _ & ->).
    exists d. simpl. tauto.
Qed.

Lemma tmp_dir_lifetime_witness :
  "/tmp/tmpa1" ∉
    dirs (go example_host data_check_fails (example_config "all") empty_os).1.2.
Proof.
  pose (run := go example_host data_check_fails (example_config "all") empty_os).
  destruct (tmp_dir_lifetime example_host data_check_fails (example_config "all")
              empty_os run.1.1 run.1.2 run.2 eq_refl) as (_ & _ & H & _).
  assert (Hin : In (EvMkdtemp "/tmp/tmpa1") run.2)
    by (right; right; left; reflexivity).
  destruct (H "/tmp/tmpa1" Hin) as (_ & _ & Hd & _). exact Hd.
Defined.

(** ** Failures *)

Lemma go_run_no_setup host run_succeeds config os r t :
  go_run host run_succeeds config os r t →
  (∀ active_steps tmp_dir, ¬ setup_succeeds host config os active_steps tmp_dir) →
  (∃ e, r = Raise e) ∧ invoked t = [].
Proof.
  intros Hrun Hno.
  destruct Hrun as [e| p e| p x e| p x a|p x a d r t Hp Hx Ha Hd Hb];
    try (split; [by eexists|done]).
  exfalso. apply (Hno a d). unfold setup_succeeds. split_and!; by eauto.
Qed.

(** C8: [go] catches nothing.  A run that completes has passed the setup
    and every selected block; the failed run of an external step is the
    last run and its exception is the result of [go]; when the blocks
    before a selected block have passed and that block raises before its
    run, because a parameter cannot be resolved or the hyperparameter file
    cannot be opened or dumped, the exception it raises is the result of
    [go], the blocks before it have been invoked and neither it nor a later
    one is; and a failure of the setup is the result of a run that invokes
    nothing. *)
Theorem failure_aborts_run host run_succeeds config os r os' t :
  go host run_succeeds config os = (r, os', t) →
  (r = Ok () →
   ∃ active_steps tmp_dir,
     setup_succeeds host config os active_steps tmp_dir ∧
     Forall (passes host run_succeeds config (body_dirs os tmp_dir))
       (selected active_steps) ∧
     invoked t = selected active_steps) ∧
  (∀ t1 s i t2, t = t1 ++ EvRun s i :: t2 → run_succeeds i = false →
     r = Raise (ExecutionException i) ∧ invoked t2 = []) ∧
  (∀ active_steps tmp_dir pre s post,
     setup_succeeds host config os active_steps tmp_dir →
     selected active_steps = pre ++ s :: post →
     Forall (passes host run_succeeds config (body_dirs os tmp_dir)) pre →
     (∀ e, prepare host config (body_dirs os tmp_dir) s = Raise e →
        r = Raise e ∧ invoked t = pre) ∧
     (∀ i, prepare host config (body_dirs os tmp_dir) s = Ok i →
        run_succeeds i = false →
        r = Raise (ExecutionException i) ∧ invoked t = pre ++ [s])) ∧
  ((∀ active_steps tmp_dir, ¬ setup_succeeds host config os active_steps tmp_dir) →
   (∃ e, r = Raise e) ∧ invoked t = []).
Proof.
  intros Hgo. apply go_spec in Hgo as [Hrun _]. split_and!.
  - intros ->. destruct (go_run_Ok _ _ _ _ _ Hrun)
      as (p & x & a & d & tb & Hp & Hx & Ha & Hd & Hb & ->).
    exists a, d. split; [unfold setup_succeeds; split_and!; by eauto|].
    split; [by eapply outcome_Ok|].
    rewrite invoked_go_with by done.
    destruct (outcome_invoked _ _ _ _ _ _ _ Hb) as (rest & -> & Hrest).
    by rewrite Hrest, app_nil_r.
  - intros t1 s i t2 Ht Hfail.
    assert (Hin : In (EvRun s i) t) by (rewrite Ht; apply in_app_iff; right; by left).
    destruct (go_run_entered _ _ _ _ _ _ _ Hrun Hin eq_refl)
      as (p & x & a & d & tb & _ & _ & _ & _ & Hb & Heq).
    rewrite Heq in Ht. apply with_events_split in Ht as (tb1 & tb2 & -> & Htb & ->).
    2:{ intros s' i'. repeat split; discriminate. }
    destruct (outcome_failed_run _ _ _ _ _ _ _ _ _ _ _ Hb Htb Hfail) as [-> ->].
    done.
  - intros a d pre s post Hsetup Hsel Hpre.
    destruct (go_run_setup _ _ _ _ _ _ _ _ Hrun Hsetup) as (p & x & tb & Hb & ->).
    rewrite Hsel in Hb. rewrite invoked_go_with by done.
    exact (outcome_stops host run_succeeds config _ pre s post r tb Hb Hpre).
  - by apply (go_run_no_setup host run_succeeds).
Qed.

Lemma failure_aborts_run_witness :
  resolve example_host (without "data_check" (example_config "all")) data_check
    = Raise (KeyError "data_check") ∧
  (go example_host all_succeed (without "data_check" (example_config "all"))
     empty_os).1.1
    = Raise (KeyError "data_check") ∧
  invoked (go example_host all_succeed (without "data_check" (example_config "all"))
             empty_os).2
    = [download; basic_cleaning].
Proof.
  split; [reflexivity|].
  pose (config := without "data_check" (example_config "all")).
  pose (run := go example_host all_succeed config empty_os).
  destruct (failure_aborts_run example_host all_succeed config empty_os
              run.1.1 run.1.2 run.2 eq_refl) as (_ & _ & H & _).
  destruct (H _steps "/tmp/tmpa1" [download; basic_cleaning] data_check
              [data_split; train_random_forest]) as [H1 _].
  - unfold setup_succeeds. split_and!; [by eexists|by eexists|reflexivity|reflexivity].
  - reflexivity.
  - repeat constructor; eexists; split; reflexivity.
  - apply (H1 (KeyError "data_check")). reflexivity.
Defined.

(** ** The hyperparameter file *)

Lemma train_random_forest_call_rf_config host config path i :
  train_random_forest_call host config path = Ok i →
  assoc "rf_config" (inv_parameters i) = Some (VStr path) ∧
  inv_uri i = LocalPath (src_path host "train_random_forest").
Proof.
  unfold train_random_forest_call. unfold_M.
  repeat match goal with
    | |- context [match ?c with Ok _ => _ | Raise _ => _ end] =>
        destruct c; [|discriminate]
    end.
  by intros [= <-].
Qed.

(** A run of the training step comes right after the hyperparameter file
    has been opened and the dump of the hyperparameters written to it. *)
Lemma go_run_train host run_succeeds config os r t i :
  go_run host run_succeeds config os r t →
  In (EvRun train_random_forest i) t →
  ∃ d t1 t2,
    rf_dict config = Ok d ∧ (iterencode d).2 = None ∧
    train_random_forest_call host config (abspath host "rf_config.json") = Ok i ∧
    t = t1 ++ [EvOpen (abspath host "rf_config.json");
               EvWrite (abspath host "rf_config.json") (iterencode d).1;
               EvRun train_random_forest i] ++ t2.
Proof.
  intros Hrun Hin.
  destruct (go_run_entered _ _ _ _ _ _ _ Hrun Hin eq_refl)
    as (p & x & a & tmp & tb & _ & _ & _ & _ & Hb & ->).
  assert (Hitb : In (EvRun train_random_forest i) tb).
  { simpl in Hin. rewrite in_app_iff in Hin. simpl in Hin. intuition discriminate. }
  destruct (outcome_train _ _ _ _ _ _ _ _ Hb Hitb) as (d & t1 & t2 & Hd & He & Hc & ->).
  exists d, ([EvSetEnv "WANDB_PROJECT" p; EvSetEnv "WANDB_RUN_GROUP" x;
              EvMkdtemp tmp] ++ t1), (t2 ++ [EvCleanup tmp]).
  split_and!; try done. by rewrite <- !app_assoc.
Qed.

(** The file holds what was written to it since it was opened. *)
Lemma files_open_write os t1 path text :
  files (replay os (t1 ++ [EvOpen path; EvWrite path text])) !! path = Some text.
Proof.
  rewrite replay_app. simpl. rewrite lookup_insert_eq. simpl.
  by rewrite lookup_insert_eq.
Qed.

(** C4, as the driver does it: when the training step is run, the
    hyperparameters [modeling.random_forest] have just been dumped to the
    file [rf_config.json] of the working directory of the process, the file
    holds that dump, and the parameter [rf_config] of the invocation is the
    path of the file, a string, not the hyperparameters. *)
Theorem rf_config_written_in_cwd host run_succeeds config os r os' t i :
  go host run_succeeds config os = (r, os', t) →
  In (EvRun train_random_forest i) t →
  ∃ kvs text t1 t2,
    getitem2 config "modeling" "random_forest" = Ok (DictConfig kvs) ∧
    iterencode (py_dict kvs) = (text, None) ∧
    t = t1 ++ [EvOpen (path_join (getcwd host) "rf_config.json");
               EvWrite (path_join (getcwd host) "rf_config.json") text;
               EvRun train_random_forest i] ++ t2 ∧
    files (replay os (t1 ++ [EvOpen (path_join (getcwd host) "rf_config.json");
                             EvWrite (path_join (getcwd host) "rf_config.json") text]))
      !! path_join (getcwd host) "rf_config.json" = Some text ∧
    assoc "rf_config" (inv_parameters i)
      = Some (VStr (path_join (getcwd host) "rf_config.json")).
Proof.
  intros Hgo Hin. apply go_spec in Hgo as [Hrun _].
  destruct (go_run_train _ _ _ _ _ _ _ Hrun Hin) as (d & t1 & t2 & Hd & He & Hc & Ht).
  unfold rf_dict in Hd. unfold_M.
  destruct (getitem2 config "modeling" "random_forest") as [rf|]; [|discriminate].
  destruct rf as [| | | | |kvs]; try discriminate. simpl in Hd. injection Hd as <-.
  exists kvs, (iterencode (py_dict kvs)).1, t1, t2. split_and!.
  - reflexivity.
  - destruct (iterencode (py_dict kvs)) as [text e]. simpl in *. by subst.
  - exact Ht.
  - apply files_open_write.
  - by apply train_random_forest_call_rf_config in Hc as [Hc _].
Qed.

Lemma rf_config_written_in_cwd_witness :
  ∃ i, In (EvRun train_random_forest i)
         (go example_host all_succeed (example_config "all") empty_os).2 ∧
       assoc "rf_config" (inv_parameters i) = Some (VStr "/work/rf_config.json").
Proof.
  pose (run := go example_host all_succeed (example_config "all") empty_os).
  assert (Hin : In train_random_forest (invoked run.2))
    by (do 4 right; left; reflexivity).
  apply invoked_In in Hin as (i & Hi). exists i. split; [exact Hi|].
  destruct (rf_config_written_in_cwd example_host all_succeed (example_config "all")
              empty_os run.1.1 run.1.2 run.2 i eq_refl Hi)
    as (_ & _ & _ & _ & _ & _ & _ & _ & H).
  exact H.
Defined.

(** C4 as stated does not hold: in the run of the example the file is
    [/work/rf_config.json] and the temporary directory is [/tmp/tmpa1]. *)
Lemma rf_config_in_tmp_dir_counterexample :
  ¬ rf_config_in_tmp_dir
      (go example_host all_succeed (example_config "all") empty_os).2.
Proof.
  intros H.
  pose (run := go example_host all_succeed (example_config "all") empty_os).
  assert (Hin : In train_random_forest (invoked run.2))
    by (do 4 right; left; reflexivity).
  apply invoked_In in Hin as (i & Hi).
  destruct (H i Hi) as (d & path & text & Hd & _ & Hinside & Hpath).
  assert (Hrun : go_run example_host all_succeed (example_config "all") empty_os
                   run.1.1 run.2) by (by apply (go_spec _ _ _ _ _ run.1.2)).
  destruct (go_run_train _ _ _ _ _ _ _ Hrun Hi) as (_ & _ & _ & _ & _ & Hc & _).
  apply train_random_forest_call_rf_config in Hc as [Hc _].
  rewrite Hc in Hpath. injection Hpath as <-.
  assert (d = "/tmp/tmpa1") as ->.
  { vm_compute in Hd. intuition congruence. }
  vm_compute in Hinside. discriminate.
Qed.









(** * Further properties of the driver *)

(** ** The invocations *)

Ltac destruct_calls :=
  unfold_M;
  repeat match goal with
    | |- context [match ?c with Ok _ => _ | Raise _ => _ end] =>
        let H := fresh "Hget" in destruct c eqn:H; [|discriminate]
    | |- context [match ?c with Some _ => _ | None => _ end] =>
        destruct c; [discriminate|]
    end.

(** X1: whatever the configuration, every invocation names the entry
    point [main]; the unit of [download] is [get_data] and that of
    [data_split] is [train_val_test_split], both, like that of
    [test_regression_model], under [main.components_repository], the other
    units lie under [src] of the directory hydra was started from; and the
    version [main] is asked for the unit of [download] only. *)
Theorem invocation_shape host config s i :
  resolve host config s = Ok i →
  inv_entry_point i = "main" ∧
  (if is_remote s
   then ∃ root, getitem2 config "main" "components_repository" = Ok root ∧
                inv_uri i = Component root (unit_name s)
   else inv_uri i = LocalPath (src_path host (unit_name s))) ∧
  inv_version i = (if decide (s = download) then Some "main" else None).
Proof.
  destruct s; simpl;
    unfold download_call, basic_cleaning_call, data_check_call, data_split_call,
      rf_dict, train_random_forest_call, test_regression_model_call;
    destruct_calls; intros [= <-]; simpl; eauto.
Qed.

Lemma invocation_shape_witness :
  ∃ i, resolve example_host (example_config "all") data_split = Ok i ∧
       inv_uri i = Component (VStr "https://example.org/pipeline#components")
                     "train_val_test_split" ∧
       inv_version i = None.
Proof.
  eexists. split; [reflexivity|].
  pose proof (invocation_shape example_host (example_config "all") data_split _
                eq_refl) as (_ & (root & Hroot & Huri) & Hv).
  split; [|exact Hv]. rewrite Huri. injection Hroot as <-. reflexivity.
Defined.

(** X2: the cleaning and the check are given the same price bounds, those
    of [etl], and the split and the training the same random seed and the
    same stratification column, those of [modeling]. *)
Theorem shared_parameters host config i j :
  (resolve host config basic_cleaning = Ok i →
   resolve host config data_check = Ok j →
   ∃ lo hi, getitem2 config "etl" "min_price" = Ok lo ∧
            getitem2 config "etl" "max_price" = Ok hi ∧
            assoc "min_price" (inv_parameters i) = Some lo ∧
            assoc "min_price" (inv_parameters j) = Some lo ∧
            assoc "max_price" (inv_parameters i) = Some hi ∧
            assoc "max_price" (inv_parameters j) = Some hi) ∧
  (resolve host config data_split = Ok i →
   resolve host config train_random_forest = Ok j →
   ∃ seed col, getitem2 config "modeling" "random_seed" = Ok seed ∧
               getitem2 config "modeling" "stratify_by" = Ok col ∧
               assoc "random_seed" (inv_parameters i) = Some seed ∧
               assoc "random_seed" (inv_parameters j) = Some seed ∧
               assoc "stratify_by" (inv_parameters i) = Some col ∧
               assoc "stratify_by" (inv_parameters j) = Some col).
Proof.
  split; simpl;
    unfold basic_cleaning_call, data_check_call, data_split_call,
      rf_dict, train_random_forest_call.
  - destruct_calls. intros [= <-] [= <-]. simpl. eauto 10.
  - destruct_calls. intros [= <-] [= <-]. simpl. eauto 10.
Qed.

Lemma lookup_path2 config a b v :
  getitem2 config a b = Ok v → ∃ path, lookup_path path config = Ok v.
Proof.
  intros H. exists [a; b]. simpl. unfold getitem2 in H. unfold_M.
  destruct (getitem config a) as [x|]; [|done]. by destruct (getitem x b).
Qed.

Lemma lookup_path3 config a b c v :
  getitem3 config a b c = Ok v → ∃ path, lookup_path path config = Ok v.
Proof.
  intros H. exists [a; b; c]. simpl. unfold getitem3, getitem2 in H. unfold_M.
  destruct (getitem config a) as [x|]; [|done].
  destruct (getitem x b) as [y|]; [|done]. by destruct (getitem y c).
Qed.

(** X3: the driver invents no parameter value: each value it passes to a
    step is a value that the configuration holds at some path, but for
    [rf_config] of the training step, which is the path of the
    hyperparameter file. *)
Theorem parameters_from_config host config s i name v :
  resolve host config s = Ok i →
  In (name, v) (inv_parameters i) →
  (s = train_random_forest ∧ name = "rf_config" ∧
   v = VStr (abspath host "rf_config.json")) ∨
  ∃ path, lookup_path path config = Ok v.
Proof.
  destruct s; simpl;
    unfold download_call, basic_cleaning_call, data_check_call, data_split_call,
      rf_dict, train_random_forest_call, test_regression_model_call;
    destruct_calls; intros [= <-]; simpl;
    intros Hin;
    repeat (destruct Hin as [[= <- <-]|Hin];
            [first [by left | right; by eauto using lookup_path2, lookup_path3]|]);
    destruct Hin.
Qed.

Lemma parameters_from_config_witness :
  ∃ path, lookup_path path (example_config "all") = Ok (VInt 350).
Proof.
  destruct (parameters_from_config example_host (example_config "all")
              data_check _ "max_price" (VInt 350) eq_refl) as [(H & _)|H].
  - do 4 right. left. reflexivity.
  - discriminate.
  - exact H.
Defined.

Lemma shared_parameters_witness :
  assoc "min_price"
    (inv_parameters
       (match resolve example_host (example_config "all") basic_cleaning with
        | Ok i => i
        | Raise _ => Invocation (LocalPath "") "" None []
        end)) = Some (VInt 10).
Proof.
  destruct (shared_parameters example_host (example_config "all")
              (match resolve example_host (example_config "all") basic_cleaning with
               | Ok i => i
               | Raise _ => Invocation (LocalPath "") "" None []
               end)
              (match resolve example_host (example_config "all") data_check with
               | Ok i => i
               | Raise _ => Invocation (LocalPath "") "" None []
               end)) as [H _].
  destruct (H eq_refl eq_refl) as (lo & hi & Hlo & _ & Hi & _).
  rewrite Hi. f_equal. by injection Hlo as <-.
Defined.

(** ** The setup *)

(** How a run of [go] is found from what [go_run] lists. *)
Lemma go_from_run host run_succeeds config os r t :
  (∀ r' t', go_run host run_succeeds config os r' t' → r' = r ∧ t' = t) →
  go host run_succeeds config os = (r, replay os t, t).
Proof.
  intros H. destruct (go host run_succeeds config os) as [[r' os'] t'] eqn:Hgo.
  apply go_spec in Hgo as [Hrun ->]. by destruct (H _ _ Hrun) as [-> ->].
Qed.

(** X4: when [main.project_name] is absent, or is not a string, or is a
    string with a NUL character, which no environment variable can hold,
    [go] raises before it has done anything: the state is the one it
    started from and there is no event. *)
Theorem project_name_failure host run_succeeds config os e :
  env_value config "project_name" = Raise e →
  go host run_succeeds config os = (Raise e, os, []).
Proof.
  intros Hp. apply (go_from_run host run_succeeds config os (Raise e) []).
  intros r' t' Hrun. destruct Hrun; split; congruence.
Qed.

Lemma project_name_failure_witness :
  go example_host all_succeed
     (setitem2 "main" "project_name" (VInt 7) (example_config "all")) stale_os
  = (Raise TypeError, stale_os, []) ∧
  go example_host all_succeed
     (setitem2 "main" "project_name" (VStr name_with_nul) (example_config "all"))
     stale_os
  = (Raise ValueError, stale_os, []).
Proof.
  split; apply project_name_failure; reflexivity.
Defined.

(** X5: when [main.project_name] is a string that a variable can hold
    and [main.experiment_name] is absent, or is not a string, or is a
    string with a NUL character, [go] raises after it has set
    [WANDB_PROJECT]: the variable keeps its new value although nothing is
    run, and [WANDB_RUN_GROUP] is not set. *)
Theorem experiment_name_failure host run_succeeds config os project e :
  env_value config "project_name" = Ok project →
  env_value config "experiment_name" = Raise e →
  go host run_succeeds config os =
    (Raise e,
     mkOS (<["WANDB_PROJECT" := project]> (environ os)) (dirs os) (files os),
     [EvSetEnv "WANDB_PROJECT" project]).
Proof.
  intros Hp Hx.
  apply (go_from_run host run_succeeds config os (Raise e)
           [EvSetEnv "WANDB_PROJECT" project]).
  intros r' t' Hrun. destruct Hrun; split; congruence.
Qed.

Lemma experiment_name_failure_witness :
  environ
    (go example_host all_succeed (without "main" (example_config "all")) stale_os).1.2
    !! "WANDB_PROJECT" = Some "old_project" ∧
  environ
    (go example_host all_succeed
        (setitem2 "main" "experiment_name" VNone (example_config "all"))
        stale_os).1.2
    !! "WANDB_PROJECT" = Some "nyc_airbnb" ∧
  go example_host all_succeed
     (setitem2 "main" "experiment_name" (VStr name_with_nul) (example_config "all"))
     stale_os
  = (Raise ValueError,
     mkOS (<["WANDB_PROJECT" := "nyc_airbnb"]> (environ stale_os)) (dirs stale_os)
          (files stale_os),
     [EvSetEnv "WANDB_PROJECT" "nyc_airbnb"]).
Proof.
  split; [reflexivity|]. split.
  - rewrite (experiment_name_failure example_host all_succeed
               (setitem2 "main" "experiment_name" VNone (example_config "all"))
               stale_os "nyc_airbnb" TypeError eq_refl eq_refl).
    reflexivity.
  - apply experiment_name_failure; reflexivity.
Defined.

(** X6: when [main.steps] is not a string, [go] raises once both
    variables are set, and neither makes a temporary directory nor runs
    anything.  The exception is that of [steps_par.split]:
    [AttributeError], but for a mapping with a key ["split"], whose value
    is what the attribute gives and cannot be called: [TypeError]. *)
Theorem steps_not_a_string host run_succeeds config os project experiment v :
  env_value config "project_name" = Ok project →
  env_value config "experiment_name" = Ok experiment →
  getitem2 config "main" "steps" = Ok v →
  (∀ s, v ≠ VStr s) →
  go host run_succeeds config os =
    (Raise (match getitem v "split" with
            | Ok _ => TypeError
            | Raise _ => AttributeError
            end),
     replay os [EvSetEnv "WANDB_PROJECT" project;
                EvSetEnv "WANDB_RUN_GROUP" experiment],
     [EvSetEnv "WANDB_PROJECT" project; EvSetEnv "WANDB_RUN_GROUP" experiment]).
Proof.
  intros Hp Hx Hv Hstr.
  assert (Ha : active_steps_of config =
               Raise (match getitem v "split" with
                      | Ok _ => TypeError
                      | Raise _ => AttributeError
                      end)).
  { unfold active_steps_of. rewrite Hv. simpl.
    destruct v as [| | | |s|kvs]; try reflexivity; [by destruct (Hstr s)|].
    simpl. by destruct (key_assoc (KStr "split") kvs). }
  apply (go_from_run host run_succeeds config os).
  intros r' t' Hrun. destruct Hrun; split; congruence.
Qed.

Lemma steps_not_a_string_witness :
  (go example_host all_succeed
      (setitem2 "main" "steps" (VInt 1) (example_config "all")) empty_os).1.1
  = Raise AttributeError ∧
  (go example_host all_succeed
      (setitem2 "main" "steps" (mapping [("split", VStr ",")])
         (example_config "all")) empty_os).1.1
  = Raise TypeError.
Proof.
  split.
  - rewrite (steps_not_a_string example_host all_succeed
               (setitem2 "main" "steps" (VInt 1) (example_config "all")) empty_os
               "nyc_airbnb" "development" (VInt 1) eq_refl eq_refl eq_refl);
      [reflexivity|discriminate].
  - rewrite (steps_not_a_string example_host all_succeed
               (setitem2 "main" "steps" (mapping [("split", VStr ",")])
                  (example_config "all")) empty_os
               "nyc_airbnb" "development" (mapping [("split", VStr ",")])
               eq_refl eq_refl eq_refl);
      [reflexivity|discriminate].
Defined.

(** X7: when every name that [tempfile] tries exists already, [go]
    raises [FileExistsError] once both variables are set, and nothing is
    run, whatever the selection. *)
Theorem no_temporary_directory host run_succeeds config os project experiment
    active_steps :
  env_value config "project_name" = Ok project →
  env_value config "experiment_name" = Ok experiment →
  active_steps_of config = Ok active_steps →
  List.find (λ p, negb (path_exists os p)) (candidate_names host) = None →
  go host run_succeeds config os =
    (Raise FileExistsError,
     replay os [EvSetEnv "WANDB_PROJECT" project;
                EvSetEnv "WANDB_RUN_GROUP" experiment],
     [EvSetEnv "WANDB_PROJECT" project; EvSetEnv "WANDB_RUN_GROUP" experiment]).
Proof.
  intros Hp Hx Ha Hfind.
  apply (go_from_run host run_succeeds config os).
  intros r' t' Hrun. destruct Hrun; split; congruence.
Qed.

Lemma no_temporary_directory_witness :
  (go crowded_host all_succeed (example_config "all") empty_os).1.1
  = Raise FileExistsError.
Proof.
  by rewrite (no_temporary_directory crowded_host all_succeed (example_config "all")
                empty_os "nyc_airbnb" "development" _steps).
Defined.

(** ** Completion *)

Lemma outcome_all_pass host run_succeeds config ds l :
  Forall (passes host run_succeeds config ds) l →
  ∃ t, blocks_outcome host run_succeeds config ds l = (Ok (), t) ∧ invoked t = l.
Proof.
  induction l as [|s l IH]; intros Hall; [by exists []|].
  inversion Hall as [|? ? (i & Hi & Hok) Hl]; subst.
  destruct (IH Hl) as (t & Ht & Hinv). simpl. rewrite Hi, Hok, Ht.
  eexists. split; [reflexivity|].
  rewrite invoked_app, invoked_file_events. simpl. by rewrite Hinv.
Qed.

(** X8: [go] completes as soon as the setup succeeds and every selected
    block arrives at its invocation and has its run succeed, and then it
    has invoked the selected blocks, all of them; nothing that belongs to a
    block that is not selected can stop it. *)
Theorem go_completes host run_succeeds config os active_steps tmp_dir :
  setup_succeeds host config os active_steps tmp_dir →
  Forall (passes host run_succeeds config (body_dirs os tmp_dir))
    (selected active_steps) →
  (go host run_succeeds config os).1.1 = Ok () ∧
  invoked (go host run_succeeds config os).2 = selected active_steps.
Proof.
  intros Hsetup Hall.
  destruct (go host run_succeeds config os) as [[r os'] t] eqn:Hgo. simpl.
  apply go_spec in Hgo as [Hrun _].
  destruct (go_run_setup _ _ _ _ _ _ _ _ Hrun Hsetup) as (p & x & tb & Hb & ->).
  destruct (outcome_all_pass _ _ _ _ _ Hall) as (tb' & Hb' & Hinv).
  rewrite Hb in Hb'. injection Hb' as -> ->.
  split; [done|]. by rewrite invoked_go_with.
Qed.

Lemma go_completes_witness :
  (go example_host all_succeed
      (without "data_check" (example_config "download,basic_cleaning"))
      empty_os).1.1 = Ok ().
Proof.
  apply (go_completes example_host all_succeed
           (without "data_check" (example_config "download,basic_cleaning"))
           empty_os ["download"; "basic_cleaning"] "/tmp/tmpa1").
  - unfold setup_succeeds. split_and!; [by eexists|by eexists|reflexivity|reflexivity].
  - repeat constructor; eexists; split; reflexivity.
Defined.

(** X9: no run invokes a step twice, however often the selection names
    it, and the steps are always invoked in the order of the blocks of
    [go]; so a run invokes six steps at most. *)
Theorem no_step_twice host run_succeeds config os r os' t :
  go host run_succeeds config os = (r, os', t) →
  NoDup (invoked t) ∧ sublist (invoked t) blocks ∧ (length (invoked t) ≤ 6)%nat.
Proof.
  intros Hgo. apply go_spec in Hgo as [Hrun _].
  assert (Hsub : sublist (invoked t) blocks).
  { destruct Hrun as [| | | |p x a d r t _ _ _ _ Hb]; try apply sublist_nil_l.
    rewrite invoked_go_with by done.
    destruct (outcome_invoked _ _ _ _ _ _ _ Hb) as (rest & Hsel & _).
    transitivity (selected a); [|apply selected_sublist].
    rewrite Hsel. by apply sublist_inserts_r. }
  split; [|split; [done|]].
  - eapply sublist_NoDup; [|exact Hsub]. by apply (bool_decide_unpack _).
  - by apply sublist_length in Hsub.
Qed.

Lemma no_step_twice_witness :
  invoked (go example_host all_succeed
             (example_config "download,data_check,download,download") empty_os).2
  = [download; data_check] ∧
  NoDup (invoked (go example_host all_succeed
                    (example_config "download,data_check,download,download")
                    empty_os).2).
Proof.
  split; [reflexivity|].
  pose (run := go example_host all_succeed
                 (example_config "download,data_check,download,download") empty_os).
  by destruct (no_step_twice example_host all_succeed
                 (example_config "download,data_check,download,download")
                 empty_os run.1.1 run.1.2 run.2 eq_refl) as [H _].
Defined.

(** ** The files of a run *)

Section FileFacts.

Variable host : Host.
Variable run_succeeds : invocation → bool.
Variable config : value.
Variable ds : gset string.

Lemma file_events_train_only s e p :
  In e (file_events host config ds s) → file_event_path e = Some p →
  s = train_random_forest ∧ p = abspath host "rf_config.json".
Proof.
  destruct s; simpl; try tauto.
  destruct (bool_decide _); [intros []|]. intros [<-|H]; [by intros [= <-]|].
  destruct (rf_dict config); simpl in H; [|tauto].
  destruct H as [<-|[]]. by intros [= <-].
Qed.

(** The file events of a list of blocks are those of the training block,
    which must be in the list. *)
Lemma outcome_file_event l r t e p :
  blocks_outcome host run_succeeds config ds l = (r, t) →
  In e t → file_event_path e = Some p →
  In train_random_forest l ∧ p = abspath host "rf_config.json".
Proof.
  revert r t. induction l as [|s l IH]; intros r t; simpl.
  - intros [= <- <-] [].
  - assert (Hhere : In e (file_events host config ds s) → file_event_path e = Some p →
              (s = train_random_forest ∨ In train_random_forest l) ∧
              p = abspath host "rf_config.json").
    { intros H1 H2. destruct (file_events_train_only _ _ _ H1 H2). auto. }
    destruct (prepare host config ds s) as [i|x].
    + destruct (run_succeeds i).
      * destruct (blocks_outcome _ _ _ _ l) as [r' t'].
        intros [= <- <-]. rewrite in_app_iff. simpl.
        intros [H|[<-|H]] Hp; [by apply Hhere|discriminate|].
        destruct (IH _ _ eq_refl H Hp). auto.
      * intros [= <- <-]. rewrite in_app_iff. simpl.
        intros [H|[<-|[]]] Hp; [by apply Hhere|discriminate].
    + intros [= <- <-]. apply Hhere.
Qed.

(** When no block is listed twice, the file events of the list are none
    or those of the one training block. *)
Lemma outcome_file_events l r t :
  NoDup l → blocks_outcome host run_succeeds config ds l = (r, t) →
  omap (λ e, match file_event_path e with Some _ => Some e | None => None end) t = []
  ∨ omap (λ e, match file_event_path e with Some _ => Some e | None => None end) t
    = file_events host config ds train_random_forest.
Proof.
  set (fe := omap (λ e, match file_event_path e with
                        | Some _ => Some e | None => None end)).
  assert (Hfe : ∀ s, fe (file_events host config ds s) = file_events host config ds s).
  { intros s. destruct s; try reflexivity. unfold fe. simpl.
    destruct (bool_decide _); [reflexivity|]. by destruct (rf_dict config). }
  assert (Hnone : ∀ l' r' t', ¬ In train_random_forest l' →
            blocks_outcome host run_succeeds config ds l' = (r', t') → fe t' = []).
  { intros l' r' t' Hnot Hb.
    destruct (fe t') as [|e rest] eqn:Hfe'; [done|]. exfalso.
    assert (He : e ∈ fe t') by (rewrite Hfe'; left).
    apply list_elem_of_omap in He as (e' & He' & Hm).
    destruct (file_event_path e') as [p|] eqn:Hp; [|discriminate].
    apply list_elem_of_In in He'.
    by destruct (outcome_file_event _ _ _ _ _ Hb He' Hp). }
  revert r t. induction l as [|s l IH]; intros r t Hnd; simpl.
  - intros [= <- <-]. by left.
  - apply NoDup_cons in Hnd as [Hs Hnd].
    assert (Hother : s ≠ train_random_forest → file_events host config ds s = [])
      by (by destruct s).
    destruct (prepare host config ds s) as [i|x].
    + destruct (run_succeeds i).
      * destruct (blocks_outcome _ _ _ _ l) as [r' t'] eqn:Hb.
        intros [= <- <-]. unfold fe. rewrite omap_app. fold fe. rewrite Hfe.
        simpl. fold fe.
        destruct (decide (s = train_random_forest)) as [->|Hne].
        -- right. rewrite (Hnone l r' t'); [by rewrite app_nil_r| |done].
           intros Hin. apply Hs. by apply list_elem_of_In.
        -- rewrite Hother by done. simpl. by apply (IH r' t').
      * intros [= <- <-]. unfold fe. rewrite omap_app. fold fe. rewrite Hfe.
        simpl. rewrite app_nil_r.
        destruct (decide (s = train_random_forest)) as [->|Hne]; [by right|].
        left. by apply Hother.
    + intros [= <- <-]. rewrite Hfe.
      destruct (decide (s = train_random_forest)) as [->|Hne]; [by right|].
      left. by apply Hother.
Qed.

End FileFacts.

(** Only its file events matter to the files after the body. *)
Lemma files_replay_body os t :
  Forall (λ e, body_event e = true) t →
  files (replay os t) =
  files (replay os
           (omap (λ e, match file_event_path e with
                       | Some _ => Some e | None => None end) t)).
Proof.
  revert os. induction t as [|e t IH]; intros os Ht; [reflexivity|].
  inversion Ht as [|? ? He Ht']; subst. unfold replay in *.
  destruct e; try discriminate; simpl; by rewrite IH.
Qed.

(** A file that no event opens or writes is as it was. *)
Lemma files_replay_other os t q :
  Forall (λ e, body_event e = true) t →
  (∀ e, In e t → file_event_path e ≠ Some q) →
  files (replay os t) !! q = files os !! q.
Proof.
  revert os. induction t as [|e t IH]; intros os Ht Hq; [reflexivity|].
  inversion Ht as [|? ? He Ht']; subst. unfold replay in *. simpl.
  rewrite IH; [|done|intros e' He'; apply Hq; by right].
  assert (Hne := Hq e (or_introl eq_refl)).
  destruct e; try discriminate; simpl in *; try done;
    rewrite lookup_insert_ne; congruence.
Qed.

Lemma selected_NoDup active_steps : NoDup (selected active_steps).
Proof.
  eapply sublist_NoDup; [|apply selected_sublist]. by apply (bool_decide_unpack _).
Qed.

Lemma lookup_filter_keep {A} (P : string * A → Prop) `{!∀ x, Decision (P x)}
    (m : gmap string A) q :
  (∀ x, P (q, x)) → filter P m !! q = m !! q.
Proof.
  intros HP. destruct (m !! q) as [x|] eqn:Hq.
  - by apply map_lookup_filter_Some_2.
  - apply map_lookup_filter_None. by left.
Qed.

(** X11: the driver writes to one file only, [rf_config.json] of the
    working directory, and only in a run whose selection names the
    training step. *)
Theorem writes_only_rf_config host run_succeeds config os r os' t e p :
  go host run_succeeds config os = (r, os', t) →
  In e t → file_event_path e = Some p →
  p = abspath host "rf_config.json" ∧
  ∃ active_steps, active_steps_of config = Ok active_steps ∧
                  In "train_random_forest" active_steps.
Proof.
  intros Hgo He Hp. apply go_spec in Hgo as [Hrun _].
  assert (Hset : is_setenv e = false) by (by destruct e).
  destruct (go_run_entered _ _ _ _ _ _ _ Hrun He Hset)
    as (pn & x & a & d & tb & _ & _ & Ha & _ & Hb & ->).
  assert (Hin : In e tb).
  { simpl in He. rewrite in_app_iff in He. simpl in He.
    destruct He as [<-|[<-|[<-|[H|[<-|[]]]]]]; try discriminate. done. }
  destruct (outcome_file_event _ _ _ _ _ _ _ _ _ Hb Hin Hp) as [Htrain ->].
  split; [done|]. exists a. split; [done|].
  by apply (selected_In train_random_forest).
Qed.

Lemma writes_only_rf_config_witness :
  In (EvOpen "/work/rf_config.json")
     (go example_host all_succeed (example_config "all") empty_os).2 ∧
  ∃ active_steps,
    active_steps_of (example_config "all") = Ok active_steps ∧
    In "train_random_forest" active_steps.
Proof.
  pose (run := go example_host all_succeed (example_config "all") empty_os).
  assert (He : In (EvOpen "/work/rf_config.json") run.2)
    by (do 7 right; left; reflexivity).
  split; [exact He|].
  by destruct (writes_only_rf_config example_host all_succeed
                 (example_config "all") empty_os
                 run.1.1 run.1.2 run.2 _ "/work/rf_config.json" eq_refl He eq_refl)
    as [_ H].
Defined.

(** X12: a run that gets a temporary directory [d] leaves the state as
    follows: the two variables have the values of the configuration and the
    other variables are as before; the directories are those of before,
    less what lies below [d]; and every file but [rf_config.json] is as
    before, or gone when it lies below [d]. *)
Theorem frame host run_succeeds config os r os' t d :
  go host run_succeeds config os = (r, os', t) →
  In (EvMkdtemp d) t →
  (∃ project experiment,
     env_value config "project_name" = Ok project ∧
     env_value config "experiment_name" = Ok experiment ∧
     environ os' =
       <["WANDB_RUN_GROUP" := experiment]>
         (<["WANDB_PROJECT" := project]> (environ os))) ∧
  (∀ q, q ∈ dirs os' ↔ q ∈ dirs os ∧ inside d q = false) ∧
  (∀ q, q ≠ abspath host "rf_config.json" →
        files os' !! q = if inside d q then None else files os !! q).
Proof.
  intros Hgo Hd. apply go_spec in Hgo as [Hrun ->].
  destruct (go_run_entered _ _ _ _ _ _ _ Hrun Hd eq_refl)
    as (p & x & a & d' & tb & Hp & Hx & Ha & Hfind & Hb & ->).
  pose proof (outcome_body _ _ _ _ _ _ _ Hb) as Hbody.
  assert (d' = d) as ->.
  { simpl in Hd. rewrite in_app_iff in Hd. simpl in Hd.
    destruct Hd as [H|[H|[H|[H|[H|[]]]]]]; try discriminate; [congruence|].
    by pose proof (Forall_In _ _ _ Hbody H). }
  apply find_some in Hfind as [_ Hfresh]. apply negb_true_iff in Hfresh.
  unfold path_exists in Hfresh. apply orb_false_iff in Hfresh as [Hdir _].
  apply bool_decide_eq_false in Hdir.
  rewrite !app_assoc, replay_app.
  change (([EvSetEnv "WANDB_PROJECT" p; EvSetEnv "WANDB_RUN_GROUP" x; EvMkdtemp d]
           ++ tb))
    with ([EvSetEnv "WANDB_PROJECT" p; EvSetEnv "WANDB_RUN_GROUP" x; EvMkdtemp d]
          ++ tb).
  rewrite replay_app. split_and!.
  - exists p, x. split_and!; try done. simpl.
    rewrite environ_replay; [done|].
    eapply Forall_impl; [exact Hbody|]. apply body_event_not_setenv.
  - intros q. simpl. rewrite elem_of_filter, dirs_replay_body by done. simpl.
    rewrite elem_of_union, elem_of_singleton. split.
    + intros [[Hq Hin] [->|Hold]]; done.
    + intros [Hq Hin]. split; [|by right]. split; [|done]. by intros ->.
  - intros q Hq. simpl. destruct (inside d q) eqn:Hin.
    + apply map_lookup_filter_None. right. intros v _. simpl. congruence.
    + rewrite lookup_filter_keep by done.
      rewrite files_replay_other; [done|done|].
      intros e He Hpath.
      destruct (outcome_file_event _ _ _ _ _ _ _ _ _ Hb He Hpath). congruence.
Qed.

Lemma frame_witness :
  environ (go example_host all_succeed (example_config "all") stale_os).1.2
    !! "WANDB_PROJECT" = Some "nyc_airbnb" ∧
  "/work" ∈ dirs (go example_host all_succeed (example_config "all") stale_os).1.2.
Proof.
  pose (run := go example_host all_succeed (example_config "all") stale_os).
  destruct (frame example_host all_succeed (example_config "all") stale_os
              run.1.1 run.1.2 run.2 "/tmp/tmpa1" eq_refl)
    as ((p & x & Hp & Hx & Henv) & Hdirs & _).
  { right. right. left. reflexivity. }
  split.
  - fold run. rewrite Henv. injection Hp as <-. reflexivity.
  - apply Hdirs. split; [|reflexivity]. unfold stale_os. simpl.
    by apply elem_of_singleton_2.
Defined.

(** What the hyperparameter file holds after a run that opened it and
    did not clean it up with the temporary directory. *)
Lemma rf_config_after host run_succeeds config os r t d :
  go_run host run_succeeds config os r t →
  In (EvOpen (abspath host "rf_config.json")) t →
  In (EvMkdtemp d) t →
  inside d (abspath host "rf_config.json") = false →
  files (replay os t) !! abspath host "rf_config.json" =
  Some (match rf_dict config with
        | Ok dct => (iterencode dct).1
        | Raise _ => ""
        end).
Proof.
  intros Hrun Hopen Hd Hin.
  destruct (go_run_entered _ _ _ _ _ _ _ Hrun Hd eq_refl)
    as (p & x & a & d' & tb & _ & _ & _ & _ & Hb & ->).
  pose proof (outcome_body _ _ _ _ _ _ _ Hb) as Hbody.
  assert (d' = d) as ->.
  { simpl in Hd. rewrite in_app_iff in Hd. simpl in Hd.
    destruct Hd as [H|[H|[H|[H|[H|[]]]]]]; try discriminate; [congruence|].
    by pose proof (Forall_In _ _ _ Hbody H). }
  assert (Hopen' : In (EvOpen (abspath host "rf_config.json")) tb).
  { simpl in Hopen. rewrite in_app_iff in Hopen. simpl in Hopen.
    destruct Hopen as [H|[H|[H|[H|[H|[]]]]]]; try discriminate. done. }
  rewrite !app_assoc, replay_app.
  change (([EvSetEnv "WANDB_PROJECT" p; EvSetEnv "WANDB_RUN_GROUP" x; EvMkdtemp d]
           ++ tb))
    with ([EvSetEnv "WANDB_PROJECT" p; EvSetEnv "WANDB_RUN_GROUP" x; EvMkdtemp d]
          ++ tb).
  rewrite replay_app. simpl. rewrite lookup_filter_keep by done.
  rewrite files_replay_body by done.
  assert (He : EvOpen (abspath host "rf_config.json") ∈
               omap (λ e, match file_event_path e with
                          | Some _ => Some e | None => None end) tb).
  { apply list_elem_of_omap. exists (EvOpen (abspath host "rf_config.json")).
    split; [by apply list_elem_of_In|done]. }
  destruct (outcome_file_events host run_succeeds config _ _ _ _
              (selected_NoDup a) Hb) as [Hfe|Hfe]; rewrite Hfe in He |- *.
  - by apply not_elem_of_nil in He.
  - simpl in He |- *. destruct (bool_decide _); [by apply not_elem_of_nil in He|].
    destruct (rf_dict config) as [dct|]; simpl.
    + by rewrite lookup_insert_eq, lookup_insert_eq.
    + by rewrite lookup_insert_eq.
Qed.

(** X13: once a run has opened [rf_config.json], what the file held
    before is lost, whether the run completes or not: the file is empty
    when the hyperparameters cannot be found, and else holds what the
    encoder yielded for them.  (The file is taken to lie outside the
    temporary directory.) *)
Theorem stale_rf_config_lost host run_succeeds config os r os' t d :
  go host run_succeeds config os = (r, os', t) →
  In (EvOpen (abspath host "rf_config.json")) t →
  In (EvMkdtemp d) t →
  inside d (abspath host "rf_config.json") = false →
  files os' !! abspath host "rf_config.json" =
  Some (match rf_dict config with
        | Ok dct => (iterencode dct).1
        | Raise _ => ""
        end).
Proof.
  intros Hgo Hopen Hd Hin. apply go_spec in Hgo as [Hrun ->].
  by eapply rf_config_after.
Qed.

Lemma stale_rf_config_lost_witness :
  files stale_os !! "/work/rf_config.json" = Some "{}" ∧
  files (go example_host all_succeed
            (without "modeling" (example_config "train_random_forest"))
            stale_os).1.2 !! "/work/rf_config.json" = Some "".
Proof.
  split; [reflexivity|].
  pose (config := without "modeling" (example_config "train_random_forest")).
  pose (run := go example_host all_succeed config stale_os).
  apply (stale_rf_config_lost example_host all_succeed config stale_os
           run.1.1 run.1.2 run.2 "/tmp/tmpa1" eq_refl).
  - right. right. right. left. reflexivity.
  - right. right. left. reflexivity.
  - reflexivity.
Defined.

Lemma outcome_directory host run_succeeds config ds l r t e :
  abspath host "rf_config.json" ∈ ds →
  blocks_outcome host run_succeeds config ds l = (r, t) →
  In e t → file_event_path e = None.
Proof.
  intros Hds.
  assert (Hfile : ∀ s, file_events host config ds s = []).
  { intros s. destruct s; try reflexivity. simpl.
    by rewrite bool_decide_eq_true_2. }
  revert r t. induction l as [|s l IH]; intros r t; simpl.
  - intros [= <- <-] [].
  - rewrite Hfile. destruct (prepare host config ds s) as [i|x].
    + destruct (run_succeeds i).
      * destruct (blocks_outcome _ _ _ _ l) as [r' t'].
        intros [= <- <-] [<-|H]; [done|]. by eapply IH.
      * intros [= <- <-] [<-|[]]. done.
    + intros [= <- <-] [].
Qed.

(** X20: when [rf_config.json] is a directory, no run gets to the training
    step: the block of the step raises [IsADirectoryError] as soon as the
    selected blocks before it have passed, the steps invoked are those
    blocks, and no file is opened or written in the run. *)
Theorem rf_config_is_directory host run_succeeds config os r os' t tmp_dir :
  go host run_succeeds config os = (r, os', t) →
  In (EvMkdtemp tmp_dir) t →
  abspath host "rf_config.json" ∈ body_dirs os tmp_dir →
  ¬ In train_random_forest (invoked t) ∧
  (∀ e, In e t → file_event_path e = None) ∧
  (∀ active_steps pre post,
     active_steps_of config = Ok active_steps →
     selected active_steps = pre ++ train_random_forest :: post →
     Forall (passes host run_succeeds config (body_dirs os tmp_dir)) pre →
     r = Raise IsADirectoryError ∧ invoked t = pre).
Proof.
  intros Hgo Hd Hdir. apply go_spec in Hgo as [Hrun _].
  destruct (go_run_mkdtemp _ _ _ _ _ _ _ Hrun Hd)
    as (p & x & a & tb & _ & _ & Ha & _ & Hb & ->).
  assert (Hprep : prepare host config (body_dirs os tmp_dir) train_random_forest
                  = Raise IsADirectoryError).
  { simpl. by rewrite bool_decide_eq_true_2. }
  split_and!.
  - rewrite invoked_go_with by done. intros Hin.
    apply invoked_In in Hin as (i & Hi).
    destruct (outcome_run _ _ _ _ _ _ _ _ _ Hb Hi) as [_ Hok]. congruence.
  - intros e He. simpl in He. rewrite in_app_iff in He. simpl in He.
    destruct He as [<-|[<-|[<-|[H|[<-|[]]]]]]; try done.
    by eapply outcome_directory.
  - intros active pre post Ha' Hsel Hpre.
    assert (a = active) as -> by congruence.
    rewrite Hsel in Hb. rewrite invoked_go_with by done.
    by destruct (outcome_stops _ _ _ _ _ _ _ _ _ Hb Hpre) as [H _]; apply H.
Qed.

Lemma rf_config_is_directory_witness :
  (go example_host all_succeed (example_config "all") blocked_os).1.1
    = Raise IsADirectoryError ∧
  invoked (go example_host all_succeed (example_config "all") blocked_os).2
    = [download; basic_cleaning; data_check; data_split] ∧
  (go example_host all_succeed (example_config "all") empty_os).1.1 = Ok ().
Proof.
  pose (run := go example_host all_succeed (example_config "all") blocked_os).
  destruct (rf_config_is_directory example_host all_succeed (example_config "all")
              blocked_os run.1.1 run.1.2 run.2 "/tmp/tmpa1" eq_refl)
    as (_ & _ & H).
  - right. right. left. reflexivity.
  - change (("/work/rf_config.json" : string)
            ∈ ({["/tmp/tmpa1"]} ∪ {["/work/rf_config.json"]} : gset string)).
    apply elem_of_union_r. by apply elem_of_singleton_2.
  - destruct (H _steps [download; basic_cleaning; data_check; data_split] []
                eq_refl eq_refl) as [Hr Hinv].
    + repeat constructor; eexists; split; reflexivity.
    + split; [exact Hr|]. split; [exact Hinv|reflexivity].
Defined.

(** X14: after a run in which the training step was run, [rf_config.json]
    is still there, outside the temporary directory that was cleaned up,
    and holds the dump of the hyperparameters, which is complete: the
    encoder raised nothing. *)
Theorem rf_config_survives host run_succeeds config os r os' t d i :
  go host run_succeeds config os = (r, os', t) →
  In (EvRun train_random_forest i) t →
  In (EvMkdtemp d) t →
  inside d (abspath host "rf_config.json") = false →
  ∃ dct text,
    rf_dict config = Ok dct ∧
    iterencode dct = (text, None) ∧
    files os' !! abspath host "rf_config.json" = Some text.
Proof.
  intros Hgo Hi Hd Hin. apply go_spec in Hgo as [Hrun ->].
  destruct (go_run_train _ _ _ _ _ _ _ Hrun Hi) as (dct & t1 & t2 & Hdct & He & _ & Ht).
  exists dct, (iterencode dct).1. split; [done|].
  assert (Hopen : In (EvOpen (abspath host "rf_config.json")) t).
  { rewrite Ht. apply in_app_iff. right. by left. }
  rewrite (rf_config_after _ _ _ _ _ _ _ Hrun Hopen Hd Hin), Hdct.
  split; [|done].
  destruct (iterencode dct) as [text e]. simpl in *. by subst.
Qed.

Lemma rf_config_survives_witness :
  ∃ text,
    iterencode example_random_forest = (text, None) ∧
    files (go example_host all_succeed (example_config "all") stale_os).1.2
      !! "/work/rf_config.json" = Some text.
Proof.
  pose (run := go example_host all_succeed (example_config "all") stale_os).
  assert (Hin : In train_random_forest (invoked run.2))
    by (do 4 right; left; reflexivity).
  apply invoked_In in Hin as (i & Hi).
  destruct (rf_config_survives example_host all_succeed (example_config "all")
              stale_os run.1.1 run.1.2 run.2 "/tmp/tmpa1" i eq_refl Hi)
    as (dct & text & Hdct & Henc & Hfile).
  - right. right. left. reflexivity.
  - reflexivity.
  - exists text. split; [|exact Hfile].
    rewrite <- Henc. by injection Hdct as <-.
Defined.

(** ** Hyperparameters that cannot be encoded *)

Lemma iterencode_items_error first d text e :
  iterencode_items first d = (text, Some e) → e = TypeError.
Proof.
  revert first text. induction d as [|[k v] d IH]; intros first text; simpl.
  - discriminate.
  - destruct (encode_value v); [|by intros [= _ <-]].
    destruct (iterencode_items false d) as [text' e'] eqn:Ht.
    intros [= _ ->]. by eapply IH.
Qed.



(** ** The text of [json.dump], continued *)

Lemma printable_append a b :
  printable_ascii (a +:+ b) = printable_ascii a && printable_ascii b.
Proof.
  induction a as [|c a IH]; [reflexivity|]. simpl. rewrite IH.
  by rewrite !andb_assoc.
Qed.

Lemma printable_encode_chars s : printable_ascii (encode_chars s) = true.
Proof.
  induction s as [|c s IH]; [reflexivity|]. simpl encode_chars.
  rewrite printable_append, IH, andb_true_r.
  by destruct c as [[] [] [] [] [] [] [] []].
Qed.

Lemma printable_encode_str s : printable_ascii (encode_str s) = true.
Proof.
  unfold encode_str. simpl. by rewrite printable_append, printable_encode_chars.
Qed.

Lemma printable_uint u : printable_ascii (NilEmpty.string_of_uint u) = true.
Proof. induction u; simpl; done. Qed.

Lemma printable_digits1 ds : printable_ascii (digits1_repr ds) = true.
Proof.
  destruct ds as [d u]. unfold digits1_repr. simpl. rewrite printable_uint.
  by destruct d.
Qed.

Lemma printable_exponent e : printable_ascii (exponent_repr e) = true.
Proof.
  destruct e as [sign ds]. unfold exponent_repr. simpl.
  rewrite printable_append, printable_digits1. by destruct sign as [[]|].
Qed.

Lemma printable_float_tail t : printable_ascii (float_tail_repr t) = true.
Proof.
  destruct t as [f [e|]|e]; unfold float_tail_repr.
  - change (printable_ascii (digits1_repr f +:+ exponent_repr e) = true).
    by rewrite printable_append, printable_digits1, printable_exponent.
  - change (printable_ascii (digits1_repr f) = true). apply printable_digits1.
  - apply printable_exponent.
Qed.

Lemma printable_encode_value v chunk :
  encode_value v = Some chunk → printable_ascii chunk = true.
Proof.
  destruct v as [|[]|[|p|p]|[[neg ip tail]|[]|]|s|kvs]; simpl; intros [= <-];
    try reflexivity.
  - apply printable_uint.
  - apply printable_uint.
  - unfold float_repr. cbn [fl_neg fl_int fl_tail].
    rewrite !printable_append, printable_uint, printable_float_tail.
    by destruct neg.
  - apply printable_encode_str.
Qed.

Lemma printable_iterencode_items first d :
  printable_ascii (iterencode_items first d).1 = true.
Proof.
  revert first. induction d as [|[k v] d IH]; intros first;
    cbn [iterencode_items]; [done|].
  destruct (encode_value v) as [chunk|] eqn:Hv.
  - specialize (IH false). destruct (iterencode_items false d) as [text e].
    cbn [fst] in *.
    rewrite !printable_append, printable_encode_str,
      (printable_encode_value v chunk Hv), IH.
    by destruct first.
  - cbn [fst]. rewrite !printable_append, printable_encode_str. by destruct first.
Qed.

(** X16: whatever the hyperparameters hold, the text that [json.dump]
    writes is made of printable ASCII characters only: characters outside
    [' '..'~'] of keys and strings are written as escapes. *)
Theorem dump_is_ascii d : printable_ascii (iterencode d).1 = true.
Proof.
  unfold iterencode. destruct d as [|kv d]; [reflexivity|].
  pose proof (printable_iterencode_items true (kv :: d)) as H.
  destruct (iterencode_items true (kv :: d)) as [text e]. simpl in *.
  by rewrite H.
Qed.

(** X17: the dump tells hyperparameters with string keys apart: two
    lists of items, each with distinct string keys, that differ have
    different complete dumps.  The keys must be strings for that: the key
    [n], an [int], is dumped as the key that is the string of its
    digits. *)
Theorem dump_injective (l1 l2 : parameters) text1 text2 :
  (NoDup (map fst l1) → NoDup (map fst l2) →
   iterencode (str_items l1) = (text1, None) →
   iterencode (str_items l2) = (text2, None) →
   l1 ≠ l2 → text1 ≠ text2) ∧
  (∀ n v, iterencode [(KInt n, v)] = iterencode [(KStr (int_repr n), v)]).
Proof.
  split; [|reflexivity].
  intros Hd1 Hd2 H1 H2 Hne ->. apply Hne.
  pose proof (json_round_trip l1 text2 Hd1 H1) as L1.
  pose proof (json_round_trip l2 text2 Hd2 H2) as L2.
  rewrite L1 in L2. injection L2 as L2.
  apply (f_equal text_items) in L2. by rewrite !text_items_str in L2.
Qed.

Lemma dump_injective_witness :
  (iterencode (str_items [("max_depth", VInt 15)])).1
  ≠ (iterencode (str_items [("max_depth", decimal d5)])).1.
Proof.
  assert (Hnd : ∀ v : value, NoDup (map fst [("max_depth", v)]))
    by (intros v; apply NoDup_singleton).
  destruct (dump_injective [("max_depth", VInt 15)] [("max_depth", decimal d5)]
              (iterencode (str_items [("max_depth", VInt 15)])).1
              (iterencode (str_items [("max_depth", decimal d5)])).1) as [H _].
  apply H; [apply Hnd|apply Hnd|reflexivity|reflexivity|discriminate].
Defined.

(** ** The pieces of a selection *)

Lemma split_piece piece : no_comma piece = true → split "," piece = [piece].
Proof.
  induction piece as [|c piece IH]; [reflexivity|]. simpl.
  intros [Hc Hp]%andb_true_iff. apply negb_true_iff in Hc. rewrite Hc.
  by rewrite IH.
Qed.

Lemma split_append_comma piece rest :
  no_comma piece = true →
  split "," (piece +:+ String "," rest) = piece :: split "," rest.
Proof.
  induction piece as [|c piece IH]; [reflexivity|]. simpl.
  intros [Hc Hp]%andb_true_iff. apply negb_true_iff in Hc. rewrite Hc.
  by rewrite IH.
Qed.

Lemma split_no_comma s : Forall (λ piece, no_comma piece = true) (split "," s).
Proof.
  induction s as [|c s IH]; [by repeat constructor|]. simpl.
  destruct (Ascii.eqb c ",") eqn:Hc; [by constructor|].
  destruct (split "," s) as [|piece pieces]; [by repeat constructor; simpl; rewrite Hc|].
  inversion IH; subst. constructor; [|done]. simpl. by rewrite Hc.
Qed.

Lemma split_length s : length (split "," s) = S (count_commas s).
Proof.
  induction s as [|c s IH]; [reflexivity|]. simpl.
  destruct (Ascii.eqb c ","); simpl; [by rewrite IH|].
  pose proof (split_nonempty "," s).
  destruct (split "," s) as [|piece pieces]; [done|]. simpl in *. lia.
Qed.

(** X18: cutting at the commas is the inverse of joining with commas:
    pieces without a comma, joined and cut again, are the same pieces, the
    empty ones and those with spaces included; and a selection with [n]
    commas always gives [n + 1] pieces, none of which holds a comma. *)
Theorem split_comma_join l s :
  (l ≠ [] → Forall (λ piece, no_comma piece = true) l →
   split "," (comma_join l) = l) ∧
  Forall (λ piece, no_comma piece = true) (split "," s) ∧
  length (split "," s) = S (count_commas s).
Proof.
  split; [|split; [apply split_no_comma|apply split_length]].
  intros Hne Hall. induction Hall as [|piece l Hp Hall IH]; [done|].
  destruct l as [|piece' l]; [by apply split_piece|].
  change (comma_join (piece :: piece' :: l))
    with (piece +:+ String "," (comma_join (piece' :: l))).
  rewrite split_append_comma by done. by rewrite IH.
Qed.

Lemma split_comma_join_witness :
  split "," (comma_join ["download"; ""; " data_check"])
  = ["download"; ""; " data_check"] ∧
  length (split "," ",,") = 3%nat.
Proof.
  destruct (split_comma_join ["download"; ""; " data_check"] ",,") as (H1 & _ & H2).
  split; [|exact H2]. apply H1; [discriminate|by repeat constructor].
Defined.

(** ** Where an exception comes from *)

Lemma getitem_error config k e i :
  getitem config k = Raise e → e ≠ ExecutionException i.
Proof.
  destruct config as [| | | | |kvs]; simpl; try by intros [= <-].
  destruct (key_assoc (KStr k) kvs); [discriminate|]. by intros [= <-].
Qed.

Lemma getitem2_error config a b e i :
  getitem2 config a b = Raise e → e ≠ ExecutionException i.
Proof.
  unfold getitem2. unfold_M. destruct (getitem config a) as [x|e'] eqn:Ha.
  - apply getitem_error.
  - intros [= <-]. by eapply getitem_error.
Qed.

Lemma getitem3_error config a b c e i :
  getitem3 config a b c = Raise e → e ≠ ExecutionException i.
Proof.
  unfold getitem3. unfold_M. destruct (getitem2 config a b) as [x|e'] eqn:Ha.
  - apply getitem_error.
  - intros [= <-]. by eapply getitem2_error.
Qed.

Ltac config_errors :=
  unfold_M;
  repeat match goal with
    | |- context [match ?c with Ok _ => _ | Raise _ => _ end] =>
        let H := fresh "Hget" in
        destruct c eqn:H;
        [|intros [= <-];
          first [ by eapply getitem2_error | by eapply getitem3_error ]]
    end;
  try discriminate.

(** What a block raises before its run is not an [ExecutionException]. *)
Lemma prepare_error host config ds s e i :
  prepare host config ds s = Raise e → e ≠ ExecutionException i.
Proof.
  assert (Hres : resolve host config s = Raise e → e ≠ ExecutionException i).
  { destruct s; simpl;
      unfold download_call, basic_cleaning_call, data_check_call, data_split_call,
        train_random_forest_call, test_regression_model_call;
      try (by config_errors).
    unfold rf_dict. unfold_M.
    destruct (getitem2 config "modeling" "random_forest") as [rf|e'] eqn:Hrf;
      [|intros [= <-]; by eapply getitem2_error].
    destruct rf as [| | | | |kvs]; simpl; try by intros [= <-].
    destruct (iterencode (py_dict kvs)) as [text [e'|]] eqn:Ht; simpl.
    - intros [= <-]. unfold iterencode in Ht.
      destruct (py_dict kvs) as [|kv d]; [discriminate|].
      destruct (iterencode_items true (kv :: d)) as [text' e''] eqn:Hi.
      injection Ht as _ ->. by rewrite (iterencode_items_error _ _ _ _ Hi).
    - by config_errors. }
  destruct s; try exact Hres. simpl.
  destruct (bool_decide _); [by intros [= <-]|exact Hres].
Qed.

Lemma outcome_execution_exception host run_succeeds config ds l t i :
  blocks_outcome host run_succeeds config ds l = (Raise (ExecutionException i), t) →
  ∃ s t0, t = t0 ++ [EvRun s i] ∧ In s l ∧
          prepare host config ds s = Ok i ∧ run_succeeds i = false.
Proof.
  revert t. induction l as [|s l IH]; intros t; simpl; [discriminate|].
  destruct (prepare host config ds s) as [j|e] eqn:Hs.
  - destruct (run_succeeds j) eqn:Hj.
    + destruct (blocks_outcome _ _ _ _ l) as [r' t'].
      intros [= -> <-]. destruct (IH _ eq_refl) as (s' & t0 & -> & Hin & Hres & Hf).
      exists s', (file_events host config ds s ++ EvRun s j :: t0).
      split; [by rewrite <- app_assoc|]. auto.
    + intros [= <- <-]. exists s, (file_events host config ds s). auto.
  - intros [= -> <-]. by apply prepare_error with (i := i) in Hs.
Qed.

(** X19: an [ExecutionException] that [go] raises is that of the failed
    run of a step: that run is the last thing the driver did before it
    cleaned up the temporary directory, and the exception carries its
    invocation, the one that the block of the step arrived at. *)
Theorem exception_provenance host run_succeeds config os os' t i :
  go host run_succeeds config os = (Raise (ExecutionException i), os', t) →
  ∃ s t0 tmp_dir,
    t = t0 ++ [EvRun s i; EvCleanup tmp_dir] ∧
    In (EvMkdtemp tmp_dir) t0 ∧
    resolve host config s = Ok i ∧ run_succeeds i = false.
Proof.
  intros Hgo. apply go_spec in Hgo as [Hrun _].
  assert (Henv : ∀ key, env_value config key ≠ Raise (ExecutionException i)).
  { intros key. unfold env_value. unfold_M.
    destruct (getitem2 config "main" key) as [v|x] eqn:Hv.
    - destruct v as [| | | |s|]; try discriminate. by destruct (has_nul s).
    - intros [= ->]. by eapply getitem2_error. }
  assert (Hact : active_steps_of config ≠ Raise (ExecutionException i)).
  { unfold active_steps_of. unfold_M.
    destruct (getitem2 config "main" "steps") as [v|x] eqn:Hv.
    - destruct v as [| | | |s|kvs]; simpl; try discriminate.
      + by destruct (String.eqb s "all").
      + by destruct (key_assoc (KStr "split") kvs).
    - intros [= ->]. by eapply getitem2_error. }
  inversion Hrun as [e' Hp|p e' Hp Hx|p x e' Hp Hx Ha|p x a Hp Hx Ha Hd
                     |p x a d r' tb Hp Hx Ha Hd Hb]; subst.
  - by destruct (Henv "project_name").
  - by destruct (Henv "experiment_name").
  - done.
  - destruct (outcome_execution_exception _ _ _ _ _ _ _ Hb)
      as (s & t0 & -> & _ & Hs & Hf).
    exists s, ([EvSetEnv "WANDB_PROJECT" p; EvSetEnv "WANDB_RUN_GROUP" x;
                EvMkdtemp d] ++ t0), d.
    split; [by rewrite <- !app_assoc|]. split; [simpl; tauto|].
    split; [by eapply prepare_resolve|done].
Qed.

Lemma exception_provenance_witness :
  ∃ i s t0 tmp_dir,
    (go example_host data_check_fails (example_config "all") empty_os).1.1
      = Raise (ExecutionException i) ∧
    (go example_host data_check_fails (example_config "all") empty_os).2
      = t0 ++ [EvRun s i; EvCleanup tmp_dir] ∧
    data_check_fails i = false.
Proof.
  pose (run := go example_host data_check_fails (example_config "all") empty_os).
  destruct run.1.1 as [|e] eqn:Hr; [discriminate|].
  destruct e as [| | | | | |i]; try discriminate.
  destruct (exception_provenance example_host data_check_fails
              (example_config "all") empty_os run.1.2 run.2 i)
    as (s & t0 & d & Ht & _ & _ & Hf).
  { rewrite <- Hr. reflexivity. }
  exists i, s, t0, d. split; [exact Hr|]. split; [exact Ht|exact Hf].
Defined.
